(** * image-api: prompt validation, rate limiting and the Cloudflare client

    A shallow embedding of
      - src/services/cloudflare.js   (credentials, upstream call, response
                                      classification, [isValidPrompt]),
      - src/middleware/validation.js ([validatePrompt], [validateRequestRate],
                                      [validateContentType]),
      - src/routes/generate.js       (the POST and GET handlers),
      - the start-up check of the server and the logger,
    followed by the properties of the specification proved about it and
    by further properties of the code.

    Conventions.
      - A JavaScript string is a [string]; every character stands for one
        UTF-16 code unit in the Latin-1 range (0..255).  [String.prototype.trim]
        and [toLowerCase] are written out for that range.
      - Numbers are rationals; times are the integers returned by
        [Date.now()] (milliseconds).
      - Handlers are computations over an explicit platform (environment,
        provider, clock, random seeds) and state (clock readings, seeds
        drawn, [fetch] calls sent, [global.rateLimitStore]); a thrown error
        is a result of its own.  Requests are handled one after the other.
      - The process-wide [global.rateLimitStore] is an optional finite map
        from client address to the list of admitted timestamps.
      - The body of an error response of the provider has the shape of
        Cloudflare's v4 envelope: [errors] is absent or an array of objects
        whose [message] is absent or a string.
      - Logging has no effect on control flow and is left out of the
        handlers; the logger is modelled on its own.  The clock readings
        counted in the state are those of the handlers themselves, not the
        ones the logger takes for its timestamps.
      - The header fields of an answer are those the handler has set on
        [res] when the body is sent.  What Express does with them while
        sending (the Content-Type of a JSON body when none is set, the
        charset, the Content-Length computed from the body) is not part of
        it.
      - [decodeURIComponent] is written out for escapes that decode to code
        points up to U+00FF; a text that decodes beyond that range is
        marked as such and left outside the model. *)

From Stdlib Require Import ZArith QArith List String Ascii Bool Lia.
From Stdlib.Strings Require Import Byte.
From stdpp Require Import gmap strings sorting.
Import ListNotations.

#[local] Set Warnings "-register-all".

Local Open Scope string_scope.
Local Open Scope Z_scope.

(** ** JavaScript strings *)

Module Str.

(** [s.length] *)
Definition len (s : string) : Z := Z.of_nat (String.length s).

Definition code (c : ascii) : Z := Z.of_N (N_of_ascii c).

(** WhiteSpace and LineTerminator code points below 256: TAB, LF, VT, FF,
    CR, SP and NBSP. *)
Definition isWhiteSpace (c : ascii) : bool :=
  let n := code c in
  ((9 <=? n) && (n <=? 13)) || (n =? 32) || (n =? 160).

Fixpoint trimStart (s : string) : string :=
  match s with
  | EmptyString => EmptyString
  | String c r => if isWhiteSpace c then trimStart r else s
  end.

Fixpoint trimEnd (s : string) : string :=
  match s with
  | EmptyString => EmptyString
  | String c r =>
      match trimEnd r with
      | EmptyString => if isWhiteSpace c then EmptyString else String c EmptyString
      | r' => String c r'
      end
  end.

(** [s.trim()] *)
Definition trim (s : string) : string := trimEnd (trimStart s).

(** Lower-casing of one code unit: A-Z, and the Latin-1 capitals
    U+00C0..U+00DE except the multiplication sign U+00D7. *)
Definition lowerChar (c : ascii) : ascii :=
  let n := code c in
  if ((65 <=? n) && (n <=? 90))
     || ((192 <=? n) && (n <=? 222) && negb (n =? 215))
  then ascii_of_N (Z.to_N (n + 32))
  else c.

(** [s.toLowerCase()] *)
Fixpoint toLowerCase (s : string) : string :=
  match s with
  | EmptyString => EmptyString
  | String c r => String (lowerChar c) (toLowerCase r)
  end.

(** [s.startsWith(t)] *)
Fixpoint startsWith (t s : string) : bool :=
  match t, s with
  | EmptyString, _ => true
  | String a t', String b s' => Ascii.eqb a b && startsWith t' s'
  | String _ _, EmptyString => false
  end.

(** [s.includes(t)] *)
Fixpoint includes (t s : string) : bool :=
  startsWith t s ||
  match s with
  | EmptyString => false
  | String _ s' => includes t s'
  end.

(** [c.repeat(n)] for a one-character string *)
Fixpoint replicate (n : nat) (c : ascii) : string :=
  match n with
  | O => EmptyString
  | S k => String c (replicate k c)
  end.

(** Decimal rendering of an integer, as in a template literal; a number
    has no more decimal digits than binary ones. *)
Fixpoint digits (fuel : nat) (n : Z) (acc : string) : string :=
  match fuel with
  | O => acc
  | S k =>
      let d := ascii_of_N (Z.to_N (48 + n mod 10)) in
      if n <? 10 then String d acc else digits k (n / 10) (String d acc)
  end.

Definition ofNonNegative (n : Z) : string :=
  digits (S (Z.to_nat (Z.log2 n))) n EmptyString.

Definition ofZ (n : Z) : string :=
  if n <? 0 then String "-" (ofNonNegative (- n)) else ofNonNegative n.

End Str.

(** ** JavaScript values (the JSON fragment plus [undefined]) *)

Inductive Value : Type :=
| VUndefined
| VNull
| VBool (b : bool)
| VNum (q : Q)
| VStr (s : string)
| VArr (items : list Value)
| VObj (fields : list (string * Value)).

Module Js.

(** ToBoolean *)
Definition truthy (v : Value) : bool :=
  match v with
  | VUndefined | VNull => false
  | VBool b => b
  | VNum q => negb (Qeq_bool q 0)
  | VStr s => negb (String.eqb s "")
  | VArr _ | VObj _ => true
  end.

(** [typeof v] *)
Definition typeof (v : Value) : string :=
  match v with
  | VUndefined => "undefined"
  | VNull | VArr _ | VObj _ => "object"
  | VBool _ => "boolean"
  | VNum _ => "number"
  | VStr _ => "string"
  end.

(** Property read on a plain object: [undefined] when absent. *)
Fixpoint get (k : string) (fields : list (string * Value)) : Value :=
  match fields with
  | [] => VUndefined
  | (k', v) :: rest => if String.eqb k k' then v else get k rest
  end.

(** Property write on a plain object: in place when present, appended
    otherwise. *)
Fixpoint set (k : string) (v : Value) (fields : list (string * Value))
  : list (string * Value) :=
  match fields with
  | [] => [(k, v)]
  | (k', v') :: rest =>
      if String.eqb k k' then (k', v) :: rest else (k', v') :: set k v rest
  end.

Definition int (n : Z) : Value := VNum (inject_Z n).

(** The double-quote character, as a string. *)
Definition quote : string := String (ascii_of_nat 34) EmptyString.

End Js.

(** ** Node platform functions *)

(** [Buffer.prototype.toString('base64')] and [Buffer.from(s, 'base64')]. *)
Module Base64.

Definition alphabet : string :=
  "ABCDEFGHIJKLMNOPQRSTUVWXYZabcdefghijklmnopqrstuvwxyz0123456789+/".

Definition pad : ascii := "="%char.

(** The character of a six-bit group. *)
Definition char (i : Z) : ascii :=
  match String.get (Z.to_nat i) alphabet with
  | Some c => c
  | None => pad
  end.

Definition octet (b : byte) : Z := Z.of_N (Byte.to_N b).

(** Three octets as one 24-bit number. *)
Definition group (a b c : Z) : Z := a * 65536 + b * 256 + c.

Fixpoint encode (bs : list byte) : string :=
  match bs with
  | [] => EmptyString
  | [a] =>
      let n := group (octet a) 0 0 in
      String (char (n / 262144 mod 64))
        (String (char (n / 4096 mod 64))
           (String pad (String pad EmptyString)))
  | [a; b] =>
      let n := group (octet a) (octet b) 0 in
      String (char (n / 262144 mod 64))
        (String (char (n / 4096 mod 64))
           (String (char (n / 64 mod 64))
              (String pad EmptyString)))
  | a :: b :: c :: rest =>
      let n := group (octet a) (octet b) (octet c) in
      String (char (n / 262144 mod 64))
        (String (char (n / 4096 mod 64))
           (String (char (n / 64 mod 64))
              (String (char (n mod 64)) (encode rest))))
  end.

Fixpoint indexFrom (i : Z) (c : ascii) (alpha : string) : option Z :=
  match alpha with
  | EmptyString => None
  | String a r => if Ascii.eqb a c then Some i else indexFrom (i + 1) c r
  end.

(** The six-bit groups of the text, up to the first padding character;
    characters outside the alphabet are skipped. *)
Fixpoint sextets (s : string) : list Z :=
  match s with
  | EmptyString => []
  | String c r =>
      match indexFrom 0 c alphabet with
      | Some i => i :: sextets r
      | None => if Ascii.eqb c pad then [] else sextets r
      end
  end.

Definition toByte (n : Z) : byte :=
  match Byte.of_N (Z.to_N (n mod 256)) with
  | Some b => b
  | None => x00
  end.

(** Four six-bit groups as one 24-bit number. *)
Definition regroup (a b c d : Z) : Z := a * 262144 + b * 4096 + c * 64 + d.

Fixpoint octets (gs : list Z) : list byte :=
  match gs with
  | a :: b :: c :: d :: rest =>
      let n := regroup a b c d in
      toByte (n / 65536) :: toByte (n / 256) :: toByte n :: octets rest
  | [a; b; c] =>
      let n := regroup a b c 0 in
      [toByte (n / 65536); toByte (n / 256)]
  | [a; b] =>
      let n := regroup a b 0 0 in
      [toByte (n / 65536)]
  | _ => []
  end.

Definition decode (s : string) : list byte := octets (sextets s).

End Base64.

(** [new Date(ms).toISOString()] for the proleptic Gregorian calendar. *)
Module Date.

Definition msPerDay : Z := 86400000.

(** Year within the 400-year era, month and day of a day of the era; the
    era starts on 1 March of a year divisible by 400. *)
Definition dayOfEra (doe : Z) : Z * Z * Z :=
  let yoe := (doe - doe / 1460 + doe / 36524 - doe / 146096) / 365 in
  let doy := doe - (365 * yoe + yoe / 4 - yoe / 100) in
  let mp := (5 * doy + 2) / 153 in
  let d := doy - (153 * mp + 2) / 5 + 1 in
  let m := if mp <? 10 then mp + 3 else mp - 9 in
  (yoe + (if m <=? 2 then 1 else 0), m, d).

(** Year, month and day of the given number of days since 1970-01-01. *)
Definition civil (days : Z) : Z * Z * Z :=
  let z := days + 719468 in
  let era := z / 146097 in
  let '(y, m, d) := dayOfEra (z - era * 146097) in
  (y + era * 400, m, d).

(** [n] written with at least [w] digits. *)
Definition padded (w : nat) (n : Z) : string :=
  let s := Str.ofZ n in
  String.append (Str.replicate (w - String.length s) "0"%char) s.

Definition year (y : Z) : string :=
  if (0 <=? y) && (y <=? 9999) then padded 4 y
  else if y <? 0 then String "-" (padded 6 (- y))
  else String "+" (padded 6 y).

Definition toISOString (ms : Z) : string :=
  let '(y, m, d) := civil (ms / msPerDay) in
  let t := ms mod msPerDay in
  String.concat ""
    [ year y; "-"; padded 2 m; "-"; padded 2 d; "T";
      padded 2 (t / 3600000); ":"; padded 2 (t / 60000 mod 60); ":";
      padded 2 (t / 1000 mod 60); "."; padded 3 (t mod 1000); "Z" ].

End Date.

(** ** The process and its surroundings *)

(** [process.env]: a variable is unset or holds a string. *)
Record Env := {
  CLOUDFLARE_ACCOUNT_ID : option string;
  CLOUDFLARE_API_TOKEN : option string
}.

(** The arguments of one [fetch(url, options)] call. *)
Record FetchRequest := {
  url : string;
  method : string;
  headers : list (string * string);
  body : Value
}.

(** One entry of the [errors] array of Cloudflare's v4 envelope; [message]
    is absent or a string. *)
Record CfError := { message : option string }.

(** What [response.json()] yields on an error response: the promise rejects,
    or the parsed value has no [errors] property, or it has an array. *)
Inductive ErrorBody :=
| Unparseable
| Parsed (errors : option (list CfError)).

Record FetchResponse := {
  status : Z;
  json : ErrorBody;
  arrayBuffer : list byte
}.

(** [response.ok] *)
Definition ok (r : FetchResponse) : bool :=
  (200 <=? status r) && (status r <=? 299).

Inductive FetchResult :=
| Rejected (reason : string)
| Resolved (response : FetchResponse).

(** What the program cannot decide: the environment, the upstream provider
    (answering the n-th call), the clock (the n-th reading of [Date.now()]
    or [new Date()]) and the seed drawn by the n-th
    [Math.floor(Math.random() * 1000000)]. *)
Record Platform := {
  env : Env;
  upstream : nat -> FetchRequest -> FetchResult;
  clock : nat -> Z;
  random : nat -> Z
}.

(** What the program changes while it runs. *)
Record State := {
  reads : nat;
  draws : nat;
  sent : list FetchRequest;
  rateLimitStore : option (gmap string (list Z))
}.

(** Thrown values. *)
Inductive Exn :=
| CloudflareAPIError (msg : string) (code : Z)
| AuthenticationError (msg : string)
| TypeError (msg : string)
| URIError (msg : string)
| Error (msg : string).

Definition name (e : Exn) : string :=
  match e with
  | CloudflareAPIError _ _ => "CloudflareAPIError"
  | AuthenticationError _ => "AuthenticationError"
  | TypeError _ => "TypeError"
  | URIError _ => "URIError"
  | Error _ => "Error"
  end.

Definition messageOf (e : Exn) : string :=
  match e with
  | CloudflareAPIError m _ | AuthenticationError m | TypeError m
  | URIError m | Error m => m
  end.

Inductive Result (A : Type) :=
| Ok (a : A)
| Throw (e : Exn).
Arguments Ok {A} a.
Arguments Throw {A} e.

(** Computations: read the platform, thread the state, return or throw. *)
Definition M (A : Type) : Type := Platform -> State -> Result A * State.

Definition ret {A} (a : A) : M A := fun _ st => (Ok a, st).

Definition throw {A} (e : Exn) : M A := fun _ st => (Throw e, st).

Definition bind {A B} (m : M A) (k : A -> M B) : M B :=
  fun p st =>
    match m p st with
    | (Ok a, st') => k a p st'
    | (Throw e, st') => (Throw e, st')
    end.

Definition tryCatch {A} (m : M A) (handler : Exn -> M A) : M A :=
  fun p st =>
    match m p st with
    | (Ok a, st') => (Ok a, st')
    | (Throw e, st') => handler e p st'
    end.

Declare Scope js_scope.
Delimit Scope js_scope with js.
Notation "x <- m ;; k" := (bind m (fun x => k))
  (at level 100, m at next level, right associativity) : js_scope.
Notation "'try' m 'catch' e => h" := (tryCatch m (fun e => h))
  (at level 100, m at level 0, e name, right associativity) : js_scope.
Local Open Scope js_scope.

(** [Date.now()] *)
Definition dateNow : M Z :=
  fun p st =>
    (Ok (clock p (reads st)),
     {| reads := S (reads st); draws := draws st; sent := sent st;
        rateLimitStore := rateLimitStore st |}).

(** [new Date().toISOString()] *)
Definition isoNow : M string :=
  now <- dateNow ;; ret (Date.toISOString now).

(** [Math.floor(Math.random() * 1000000)] *)
Definition randomSeed : M Z :=
  fun p st =>
    (Ok (random p (draws st)),
     {| reads := reads st; draws := S (draws st); sent := sent st;
        rateLimitStore := rateLimitStore st |}).

(** [await fetch(url, options)]: the call is recorded, then the provider
    answers or the promise rejects. *)
Definition fetch (rq : FetchRequest) : M FetchResponse :=
  fun p st =>
    let st' := {| reads := reads st; draws := draws st;
                  sent := (sent st ++ [rq])%list;
                  rateLimitStore := rateLimitStore st |} in
    match upstream p (List.length (sent st)) rq with
    | Resolved r => (Ok r, st')
    | Rejected reason => (Throw (TypeError reason), st')
    end.

Definition getEnv : M Env := fun p st => (Ok (env p), st).

(** ** src/services/cloudflare.js *)

Definition CLOUDFLARE_BASE_URL : string := "https://api.cloudflare.com/client/v4".
Definition STABLE_DIFFUSION_MODEL : string :=
  "@cf/stabilityai/stable-diffusion-xl-base-1.0".

(** [!v] for an environment variable: unset or empty. *)
Definition unset (v : option string) : bool :=
  match v with
  | None => true
  | Some s => String.eqb s ""
  end.

Definition validateCredentials : M (string * string) :=
  e <- getEnv ;;
  let accountId := CLOUDFLARE_ACCOUNT_ID e in
  let apiToken := CLOUDFLARE_API_TOKEN e in
  if unset accountId then
    throw (AuthenticationError
             "CLOUDFLARE_ACCOUNT_ID environment variable is required")
  else if unset apiToken then
    throw (AuthenticationError
             "CLOUDFLARE_API_TOKEN environment variable is required")
  else ret (default "" accountId, default "" apiToken).

Definition buildEndpointUrl (accountId : string) : string :=
  String.concat ""
    [CLOUDFLARE_BASE_URL; "/accounts/"; accountId; "/ai/run/";
     STABLE_DIFFUSION_MODEL].

Definition createRequestHeaders (apiToken : string) : list (string * string) :=
  [ ("Authorization", String.append "Bearer " apiToken);
    ("Content-Type", "application/json");
    ("User-Agent", "NodeJS-Image-Generator/1.0") ].

Definition genericMessage (code : Z) : string :=
  String.append "Cloudflare API request failed with status " (Str.ofZ code).

Definition processCloudflareResponse (response : FetchResponse) : M string :=
  if negb (ok response) then
    let errorMessage := genericMessage (status response) in
    let errorMessage :=
      match json response with
      | Parsed (Some (first :: _)) =>
          (* errorData.errors[0].message || errorMessage *)
          match message first with
          | Some m => if String.eqb m "" then errorMessage else m
          | None => errorMessage
          end
      | Parsed _ => errorMessage
      | Unparseable => errorMessage
      end in
    throw (CloudflareAPIError errorMessage (status response))
  else
    let buffer := arrayBuffer response in
    ret (Base64.encode buffer).

Definition generateImage (prompt : string) : M string :=
  try (
    creds <- validateCredentials ;;
    let '(accountId, apiToken) := creds in
    let url := buildEndpointUrl accountId in
    let headers := createRequestHeaders apiToken in
    seed <- randomSeed ;;
    let requestBody :=
      VObj [ ("prompt", VStr (Str.trim prompt));
             ("num_steps", Js.int 20);
             ("guidance_scale", VNum (15 # 2));
             ("seed", Js.int seed) ] in
    response <- fetch {| url := url; method := "POST"; headers := headers;
                         body := requestBody |} ;;
    processCloudflareResponse response
  ) catch error =>
    match error with
    | AuthenticationError _ | CloudflareAPIError _ _ => throw error
    | _ => throw (Error (String.append "Image generation failed: "
                                       (messageOf error)))
    end.

Definition prohibitedTerms : list string := ["nsfw"; "explicit"; "gore"; "violence"].

Definition isValidPrompt (prompt : Value) : bool :=
  if negb (Js.truthy prompt) || negb (String.eqb (Js.typeof prompt) "string")
  then false
  else
    match prompt with
    | VStr s =>
        let trimmedPrompt := Str.trim s in
        if (Str.len trimmedPrompt <? 3) || (Str.len trimmedPrompt >? 2000)
        then false
        else
          let lowerPrompt := Str.toLowerCase trimmedPrompt in
          negb (existsb (fun term => Str.includes term lowerPrompt)
                        prohibitedTerms)
    | _ => false
    end.

(** ** Requests and responses of the HTTP server *)

(** What a handler reads of a request: [req.ip] and the parsed JSON body,
    an object given by its properties (each key once). *)
Record Request := {
  ip : string;
  reqBody : list (string * Value)
}.

Inductive Payload :=
| JsonBody (v : Value)
| Buffer (bytes : list byte).

Record HttpResponse := {
  statusCode : Z;
  resHeaders : list (string * Value);
  payload : Payload
}.

(** [res.status(code).json(v)] *)
Definition respondJson (code : Z) (v : Value) : HttpResponse :=
  {| statusCode := code; resHeaders := []; payload := JsonBody v |}.

(** A middleware answers the request or hands it on with [next()]. *)
Inductive Middleware :=
| Respond (res : HttpResponse)
| Next (req : Request).

(** ** src/middleware/validation.js *)

Definition validatePrompt (req : Request) : Middleware :=
  let prompt := Js.get "prompt" (reqBody req) in
  if negb (Js.truthy prompt) then
    Respond (respondJson 400 (VObj
      [ ("success", VBool false);
        ("error", VStr "Missing required field: prompt");
        ("message", VStr (String.concat ""
           ["Request body must include a "; Js.quote; "prompt"; Js.quote;
            " field with the text description for image generation."]));
        ("example", VObj [("prompt", VStr "A beautiful landscape with mountains and a lake at sunset")]) ]))
  else if negb (String.eqb (Js.typeof prompt) "string") then
    Respond (respondJson 400 (VObj
      [ ("success", VBool false);
        ("error", VStr "Invalid prompt type");
        ("message", VStr (String.concat ""
           ["The "; Js.quote; "prompt"; Js.quote; " field must be a string."]));
        ("received", VStr (Js.typeof prompt)) ]))
  else
    match prompt with
    | VStr s =>
        if negb (isValidPrompt prompt) then
          let trimmedPrompt := Str.trim s in
          let errorMessage :=
            if Str.len trimmedPrompt <? 3 then
              "Prompt must be at least 3 characters long"
            else if Str.len trimmedPrompt >? 2000 then
              "Prompt must not exceed 2000 characters"
            else
              "Prompt contains prohibited content or invalid characters" in
          Respond (respondJson 400 (VObj
            [ ("success", VBool false);
              ("error", VStr "Invalid prompt");
              ("message", VStr errorMessage);
              ("promptLength", Js.int (Str.len trimmedPrompt));
              ("maxLength", Js.int 2000);
              ("minLength", Js.int 3) ]))
        else
          Next {| ip := ip req;
                  reqBody := Js.set "prompt" (VStr (Str.trim s)) (reqBody req) |}
    | _ => Next req
    end.

Definition windowMs : Z := 60 * 1000.
Definition maxRequests : Z := 10.

(** [Math.ceil(x / d)] on integers (the floating-point quotient is exact
    enough at the magnitudes of a time difference) *)
Definition ceilDiv (x d : Z) : Z := - ((- x) / d).

(** [validateRequestRate], with the reading [now] of [Date.now()] and the
    value of [global.rateLimitStore] passed in and the new store returned. *)
Definition validateRequestRate (req : Request) (now : Z)
    (store : option (gmap string (list Z)))
  : option (gmap string (list Z)) * Middleware :=
  let clientIP := ip req in
  let store := match store with
               | Some m => m
               | None => ∅
               end in
  let clientRequests := default [] (store !! clientIP) in
  let validRequests :=
    List.filter (fun timestamp => now - timestamp <? windowMs) clientRequests in
  if Z.of_nat (List.length validRequests) >=? maxRequests then
    (Some store,
     Respond (respondJson 429 (VObj
       [ ("success", VBool false);
         ("error", VStr "Rate limit exceeded");
         ("message", VStr (String.concat ""
            ["Too many requests. Maximum "; Str.ofZ maxRequests;
             " requests per minute allowed."]));
         ("retryAfter",
          match validRequests with
          | oldest :: _ => Js.int (ceilDiv (oldest + windowMs - now) 1000)
          | [] => VNull
          end) ])))
  else
    (Some (<[clientIP := (validRequests ++ [now])%list]> store), Next req).

(** [decodeURIComponent], on strings of code units below 256. *)
Module Uri.

(** What decoding gives: a [URIError] for a malformed escape sequence, the
    decoded text, or a text with a code point beyond U+00FF, which the
    strings of this development do not hold. *)
Inductive Decoded :=
| Malformed
| Text (s : string)
| Wide.

Definition hexValue (c : ascii) : option Z :=
  let n := Str.code c in
  if (48 <=? n) && (n <=? 57) then Some (n - 48)
  else if (65 <=? n) && (n <=? 70) then Some (n - 55)
  else if (97 <=? n) && (n <=? 102) then Some (n - 87)
  else None.

(** The octet of an escape %XY at the front of [s], and the text after it. *)
Definition escape (s : string) : option (Z * string) :=
  match s with
  | String c (String x (String y rest)) =>
      if Ascii.eqb c "%" then
        match hexValue x, hexValue y with
        | Some a, Some b => Some (16 * a + b, rest)
        | _, _ => None
        end
      else None
  | _ => None
  end.

(** [n] continuation octets 10xxxxxx, each as an escape, read into the code
    point [V] begun by the leading octet. *)
Fixpoint continuation (n : nat) (V : Z) (s : string) : option Z :=
  match n with
  | O => Some V
  | S n' =>
      match escape s with
      | Some (b, rest) =>
          if (128 <=? b) && (b <=? 191)
          then continuation n' (64 * V + (b - 128)) rest
          else None
      | None => None
      end
  end.

(** The code point that the escapes at the front of [s] encode in UTF-8,
    and the number of code units they take: one octet below 0x80, or a
    leading octet with one to three continuation octets that is the
    shortest encoding of a code point up to U+10FFFF other than a
    surrogate. *)
Definition codePointAt (s : string) : option (Z * nat) :=
  match escape s with
  | None => None
  | Some (B, rest) =>
      if B <? 128 then Some (B, 3%nat)
      else if B <? 192 then None
      else if B <? 224 then
        match continuation 1 (B - 192) rest with
        | Some V => if 128 <=? V then Some (V, 6%nat) else None
        | None => None
        end
      else if B <? 240 then
        match continuation 2 (B - 224) rest with
        | Some V =>
            if (2048 <=? V) && negb ((55296 <=? V) && (V <=? 57343))
            then Some (V, 9%nat) else None
        | None => None
        end
      else if B <? 248 then
        match continuation 3 (B - 240) rest with
        | Some V =>
            if (65536 <=? V) && (V <=? 1114111)
            then Some (V, 12%nat) else None
        | None => None
        end
      else None
  end.

(** The code point [V] in front of what the rest decodes to. *)
Definition push (V : Z) (d : Decoded) : Decoded :=
  match d with
  | Malformed => Malformed
  | Text t =>
      if V <? 256 then Text (String (ascii_of_N (Z.to_N V)) t) else Wide
  | Wide => Wide
  end.

(** Decoding from left to right; [skip] counts the code units of an escape
    sequence that are still to be passed over. *)
Fixpoint decodeFrom (skip : nat) (s : string) : Decoded :=
  match s with
  | EmptyString => Text EmptyString
  | String c rest =>
      match skip with
      | S k => decodeFrom k rest
      | O =>
          if Ascii.eqb c "%" then
            match codePointAt s with
            | Some (V, width) => push V (decodeFrom (Nat.pred width) rest)
            | None => Malformed
            end
          else push (Str.code c) (decodeFrom 0 rest)
      end
  end.

Definition decodeURIComponent (s : string) : Decoded := decodeFrom 0 s.

End Uri.

(** ** src/routes/generate.js *)

(** The status code and public message chosen for a caught error (the same
    chain of tests appears in both handlers). *)
Definition classify (error : Exn) : Z * string :=
  if String.eqb (name error) "CloudflareAPIError" then
    (502, "Failed to communicate with Cloudflare AI service")
  else if String.eqb (name error) "ValidationError" then
    (400, messageOf error)
  else if String.eqb (name error) "AuthenticationError" then
    (401, "Invalid Cloudflare API credentials")
  else
    (500, "Failed to generate image due to an internal error").

(** The handler of [router.post('/', validatePrompt, ...)]. *)
Definition postHandler (req : Request) : M HttpResponse :=
  let prompt := Js.get "prompt" (reqBody req) in
  startTime <- dateNow ;;
  try (
    (* prompt.substring(0, 50) in the log line throws on a non-string *)
    text <- match prompt with
            | VStr s => ret s
            | _ => throw (TypeError "prompt.substring is not a function")
            end ;;
    imageBase64 <- generateImage text ;;
    finished <- dateNow ;;
    let processingTime := finished - startTime in
    timestamp <- isoNow ;;
    ret (respondJson 200 (VObj
      [ ("success", VBool true);
        ("image", VStr imageBase64);
        ("prompt", prompt);
        ("timestamp", VStr timestamp);
        ("processingTimeMs", Js.int processingTime) ]))
  ) catch error =>
    finished <- dateNow ;;
    let processingTime := finished - startTime in
    let '(statusCode, errorMessage) := classify error in
    timestamp <- isoNow ;;
    ret (respondJson statusCode (VObj
      [ ("success", VBool false);
        ("error", VStr errorMessage);
        ("prompt", prompt);
        ("timestamp", VStr timestamp);
        ("processingTimeMs", Js.int processingTime) ])).

(** POST /generate as the router dispatches it: [validatePrompt], then the
    handler. *)
Definition postGenerate (req : Request) : M HttpResponse :=
  match validatePrompt req with
  | Respond res => ret res
  | Next req' => postHandler req'
  end.

(** Node refuses a header value holding a control character other than TAB. *)
Definition validHeaderValue (s : string) : bool :=
  forallb (fun c => let n := Str.code c in
                    (n =? 9) || ((32 <=? n) && (n <=? 126)) || (128 <=? n))
          (list_ascii_of_string s).

(** [res.set(fields)]: the fields are set one after the other, each value
    as a string (the values set here are strings and numbers).  A value
    that cannot be a header value throws, and the fields before it stay
    set on [res].  The result is the fields set and the error thrown, if
    any. *)
Fixpoint resSet (fields : list (string * Value))
  : list (string * Value) * option Exn :=
  match fields with
  | [] => ([], None)
  | (field, value) :: rest =>
      if match value with
         | VStr s => validHeaderValue s
         | _ => true
         end
      then
        let '(set, failure) := resSet rest in
        ((field, value) :: set, failure)
      else
        ([], Some (TypeError (String.concat ""
               ["Invalid character in header content ["; Js.quote; field;
                Js.quote; "]"])))
  end.

(** The handler of [router.get('/:prompt', ...)] from its second line on,
    with [prompt] decoded.  [failed set error] is the catch block, run on a
    response whose header fields [set] were set before the error: a
    failure inside [res.set] leaves the earlier fields on [res], and the
    JSON answer is sent with them. *)
Definition getHandler (prompt : string) : M HttpResponse :=
  startTime <- dateNow ;;
  if negb (Js.truthy (VStr prompt))
     || (Str.len (Str.trim prompt) <? 3)
     || (Str.len (Str.trim prompt) >? 2000)
  then
    ret (respondJson 400 (VObj
      [ ("success", VBool false);
        ("error", VStr "Invalid prompt");
        ("message", VStr "Prompt must be between 3 and 2000 characters long");
        ("example", VStr "GET /generate/a%20beautiful%20sunset") ]))
  else
    let failed (set : list (string * Value)) (error : Exn) : M HttpResponse :=
      finished <- dateNow ;;
      let processingTime := finished - startTime in
      let '(statusCode, errorMessage) := classify error in
      timestamp <- isoNow ;;
      ret {| statusCode := statusCode;
             resHeaders := set;
             payload := JsonBody (VObj
               [ ("success", VBool false);
                 ("error", VStr errorMessage);
                 ("prompt", VStr (Str.trim prompt));
                 ("timestamp", VStr timestamp);
                 ("processingTimeMs", Js.int processingTime);
                 ("method", VStr "GET") ]) |} in
    try (
      imageBase64 <- generateImage (Str.trim prompt) ;;
      finished <- dateNow ;;
      let processingTime := finished - startTime in
      let imageBuffer := Base64.decode imageBase64 in
      let '(set, failure) :=
        resSet
          [ ("Content-Type", VStr "image/png");
            ("Content-Length", Js.int (Z.of_nat (List.length imageBuffer)));
            ("X-Generated-Prompt", VStr (Str.trim prompt));
            ("X-Processing-Time", Js.int processingTime) ] in
      match failure with
      | None =>
          ret {| statusCode := 200; resHeaders := set;
                 payload := Buffer imageBuffer |}
      | Some error => failed set error
      end
    ) catch error => failed [] error.

(** The handler of [router.get('/:prompt', ...)].  [param] is
    [req.params.prompt], the path segment as Express hands it over (Express
    has decoded it once already).  The handler decodes it again, outside
    the [try]: a malformed escape makes the handler throw a [URIError]
    before it reads the clock or answers.  The result is [None] where the
    decoded text leaves the range of the strings modelled here. *)
Definition getGenerate (param : string) : option (M HttpResponse) :=
  match Uri.decodeURIComponent param with
  | Uri.Malformed => Some (throw (URIError "URI malformed"))
  | Uri.Text prompt => Some (getHandler prompt)
  | Uri.Wide => None
  end.

(** A run of POST /generate requests handled one after the other. *)
Fixpoint postAll (reqs : list Request) : M (list HttpResponse) :=
  match reqs with
  | [] => ret []
  | req :: rest =>
      res <- postGenerate req ;;
      more <- postAll rest ;;
      ret (res :: more)
  end.

(** [validateRequestRate] applied to a history of calls, oldest first; each
    call carries the request and its reading of the clock. *)
Fixpoint rateLimitRun (calls : list (Request * Z))
    (store : option (gmap string (list Z)))
  : option (gmap string (list Z)) * list Middleware :=
  match calls with
  | [] => (store, [])
  | (req, now) :: rest =>
      let '(store', outcome) := validateRequestRate req now store in
      let '(final, outcomes) := rateLimitRun rest store' in
      (final, outcome :: outcomes)
  end.

(** ** Vocabulary of the specification *)

(** The rejection reasons of the prompt validator, with the [error] and
    [message] texts by which the responses tell them apart. *)
Inductive Reason :=
| MissingField
| WrongType
| TooShort
| TooLong
| ProhibitedContent.

Definition errorText (r : Reason) : string :=
  match r with
  | MissingField => "Missing required field: prompt"
  | WrongType => "Invalid prompt type"
  | TooShort | TooLong | ProhibitedContent => "Invalid prompt"
  end.

Definition messageText (r : Reason) : string :=
  match r with
  | MissingField =>
      String.concat ""
        ["Request body must include a "; Js.quote; "prompt"; Js.quote;
         " field with the text description for image generation."]
  | WrongType =>
      String.concat "" ["The "; Js.quote; "prompt"; Js.quote;
                        " field must be a string."]
  | TooShort => "Prompt must be at least 3 characters long"
  | TooLong => "Prompt must not exceed 2000 characters"
  | ProhibitedContent =>
      "Prompt contains prohibited content or invalid characters"
  end.

(** A field of a JSON response body. *)
Definition field (k : string) (res : HttpResponse) : Value :=
  match payload res with
  | JsonBody (VObj fields) => Js.get k fields
  | _ => VUndefined
  end.

(** The middleware answered 400 with the texts of reason [r]. *)
Definition rejects (r : Reason) (m : Middleware) : Prop :=
  exists res,
    m = Respond res /\ statusCode res = 400 /\
    field "error" res = VStr (errorText r) /\
    field "message" res = VStr (messageText r).

(** [c] is the lower-case letter [t] or its capital. *)
Definition sameLetter (c t : ascii) : bool :=
  Ascii.eqb c t
  || ((65 <=? Str.code c) && (Str.code c <=? 90)
      && (Str.code c + 32 =? Str.code t)).

(** [w] spells [t] up to the case of its letters. *)
Fixpoint spells (w t : string) : bool :=
  match w, t with
  | EmptyString, EmptyString => true
  | String c w', String a t' => sameLetter c a && spells w' t'
  | _, _ => false
  end.

(** [s] contains a case-insensitive occurrence of [t]. *)
Definition occursCI (t s : string) : Prop :=
  exists pre w post,
    s = String.append pre (String.append w post) /\ spells w t = true.

(** [s] contains a case-insensitive occurrence of a prohibited term. *)
Definition prohibited (s : string) : Prop :=
  exists t, In t prohibitedTerms /\ occursCI t s.

(** Both credentials are configured. *)
Definition configured (e : Env) : Prop :=
  unset (CLOUDFLARE_ACCOUNT_ID e) = false /\ unset (CLOUDFLARE_API_TOKEN e) = false.

(** The text of the first entry of the [errors] array, when the body has
    one and it is not empty. *)
Definition firstErrorMessage (b : ErrorBody) : option string :=
  match b with
  | Parsed (Some ({| message := Some m |} :: _)) =>
      if String.eqb m "" then None else Some m
  | _ => None
  end.

(** The status codes of a run of responses. *)
Definition statuses (r : Result (list HttpResponse)) : list Z :=
  match r with
  | Ok l => List.map statusCode l
  | Throw _ => []
  end.

(** ** Definitions used in the statements and proofs *)

(** Every character, for properties checked by enumeration. *)
Definition allAscii : list ascii := List.map ascii_of_nat (seq 0 256).

(** [t] is one of the letters a-z. *)
Definition isLower (t : ascii) : bool := (97 <=? Str.code t) && (Str.code t <=? 122).

(** [t] is made of the letters a-z only. *)
Fixpoint lowerWord (t : string) : bool :=
  match t with
  | EmptyString => true
  | String a t' => isLower a && lowerWord t'
  end.

(** The request carries a string prompt that [isValidPrompt] accepts. *)
Definition validText (req : Request) : Prop :=
  exists s, Js.get "prompt" (reqBody req) = VStr s /\ isValidPrompt (VStr s) = true.

(** A field of the JSON body of a handler result. *)
Definition fieldOf (k : string) (r : Result HttpResponse) : Value :=
  match r with
  | Ok res => field k res
  | Throw _ => VUndefined
  end.

(** The [fetch] arguments that [generateImage] builds for a prompt and a seed. *)
Definition requestFor (e : Env) (prompt : string) (seed : Z) : FetchRequest :=
  {| url := buildEndpointUrl (default "" (CLOUDFLARE_ACCOUNT_ID e));
     method := "POST";
     headers := createRequestHeaders (default "" (CLOUDFLARE_API_TOKEN e));
     body := VObj [ ("prompt", VStr (Str.trim prompt));
                    ("num_steps", Js.int 20);
                    ("guidance_scale", VNum (15 # 2));
                    ("seed", Js.int seed) ] |}.

(** The state after [generateImage] drew a seed and sent [rq]. *)
Definition afterFetch (st : State) (rq : FetchRequest) : State :=
  {| reads := reads st; draws := S (draws st);
     sent := (sent st ++ [rq])%list; rateLimitStore := rateLimitStore st |}.

(** The state after [n] more readings of the clock. *)
Definition afterReads (n : nat) (st : State) : State :=
  {| reads := n + reads st; draws := draws st;
     sent := sent st; rateLimitStore := rateLimitStore st |}.

(** The body of the 200 answer of POST /generate. *)
Definition successEnvelope (image : string) (prompt : Value) (stamp : string)
    (elapsed : Z) : HttpResponse :=
  respondJson 200 (VObj
    [ ("success", VBool true);
      ("image", VStr image);
      ("prompt", prompt);
      ("timestamp", VStr stamp);
      ("processingTimeMs", Js.int elapsed) ]).

(** The error answer of POST /generate for a caught error. *)
Definition errorEnvelope (e : Exn) (prompt : Value) (stamp : string)
    (elapsed : Z) : HttpResponse :=
  respondJson (fst (classify e)) (VObj
    [ ("success", VBool false);
      ("error", VStr (snd (classify e)));
      ("prompt", prompt);
      ("timestamp", VStr stamp);
      ("processingTimeMs", Js.int elapsed) ]).

(** The timestamps held for a client, empty when the client is unseen or
    the store does not exist yet. *)
Definition stored (store : option (gmap string (list Z))) (key : string) : list Z :=
  default [] (default ∅ store !! key).

(** The entries of [l] less than one window older than [now]. *)
Definition recent (now : Z) (l : list Z) : list Z :=
  List.filter (fun t => now - t <? 60000) l.

(** The calls of one client at the given times. *)
Definition callsAt (req : Request) (times : list Z) : list (Request * Z) :=
  List.map (fun t => (req, t)) times.

(** Every stored list is in non-decreasing order and holds no timestamp
    later than [bound]. *)
Definition ordered (store : option (gmap string (list Z))) (bound : Z) : Prop :=
  forall key,
    StronglySorted Z.le (stored store key)
    /\ Forall (fun t => t <= bound) (stored store key).

(** [s] has the shape of [pattern], where the letter d stands for a digit
    and every other character for itself. *)
Fixpoint shaped (pattern s : string) : bool :=
  match pattern, s with
  | EmptyString, EmptyString => true
  | String p pattern', String c s' =>
      (if Ascii.eqb p "d"
       then (48 <=? Str.code c) && (Str.code c <=? 57)
       else Ascii.eqb p c)
      && shaped pattern' s'
  | _, _ => false
  end.

(** The ISO-8601 form of a date and time in UTC with milliseconds. *)
Definition iso8601 (s : string) : bool := shaped "dddd-dd-ddTdd:dd:dd.dddZ" s.

(** [P] holds of [i], [i + 1], ... for [fuel] consecutive integers. *)
Fixpoint holdsFrom (fuel : nat) (i : Z) (P : Z -> bool) : bool :=
  match fuel with
  | O => true
  | S k => P i && holdsFrom k (i + 1) P
  end.

(** ** Sample inputs *)

(** A request of [client] whose body is [{prompt: s}]. *)
Definition textRequest (client s : string) : Request :=
  {| ip := client; reqBody := [("prompt", VStr s)] |}.

(** A prohibited term followed by 2000 letters. *)
Definition longProhibited : string :=
  String.append "nsfw" (Str.replicate 2000 "a"%char).

(** The first four bytes of a PNG file. *)
Definition png : list byte := [x89; x50; x4e; x47].

(** Both credentials configured. *)
Definition sampleEnv : Env :=
  {| CLOUDFLARE_ACCOUNT_ID := Some "acct"; CLOUDFLARE_API_TOKEN := Some "token" |}.

(** A provider that answers every call with [r]; the clock advances by 5 ms per reading. *)
Definition answering (e : Env) (r : FetchResponse) : Platform :=
  {| env := e;
     upstream := fun _ _ => Resolved r;
     clock := fun n => 1692786600000 + 5 * Z.of_nat n;
     random := fun n => Z.of_nat n |}.

(** A success response carrying [png]. *)
Definition imageResponse : FetchResponse :=
  {| status := 200; json := Unparseable; arrayBuffer := png |}.

(** An error response with a structured message. *)
Definition quotaResponse : FetchResponse :=
  {| status := 429;
     json := Parsed (Some [ {| message := Some "quota exceeded" |} ]);
     arrayBuffer := [] |}.

(** The state of a process that has just started. *)
Definition freshState : State :=
  {| reads := 0; draws := 0; sent := []; rateLimitStore := None |}.

(** Eleven valid requests of one client. *)
Definition elevenRequests : list Request :=
  repeat (textRequest "203.0.113.7" "a cat") 11.

(** ** More of src/middleware/validation.js *)

(** [validateContentType]; [contentType] is what [req.get('Content-Type')]
    returns, a string or nothing. *)
Definition validateContentType (contentType : option string) (req : Request)
  : Middleware :=
  if unset contentType
     || negb (Str.includes "application/json" (default "" contentType))
  then
    Respond (respondJson 400 (VObj
      [ ("success", VBool false);
        ("error", VStr "Invalid Content-Type");
        ("message", VStr "Request must have Content-Type: application/json");
        ("received", VStr (if unset contentType then "none"
                           else default "" contentType)) ]))
  else Next req.

(** The times at which calls of client [key] were admitted, read off the
    calls and their outcomes. *)
Fixpoint admittedAt (key : string) (calls : list (Request * Z))
    (outcomes : list Middleware) : list Z :=
  match calls, outcomes with
  | (req, t) :: calls', Next _ :: outcomes' =>
      if String.eqb (ip req) key then t :: admittedAt key calls' outcomes'
      else admittedAt key calls' outcomes'
  | _ :: calls', Respond _ :: outcomes' => admittedAt key calls' outcomes'
  | _, _ => []
  end.

(** From time [bound] on, the stored lists and the admitted calls [adm] of
    every client hold the same entries of any window. *)
Definition tracks (store : option (gmap string (list Z)))
    (adm : string -> list Z) (bound : Z) : Prop :=
  forall key now,
    bound <= now -> recent now (stored store key) = recent now (adm key).

(** No client has more than ten timestamps stored. *)
Definition withinCapacity (store : option (gmap string (list Z))) : Prop :=
  forall key, (List.length (stored store key) <= 10)%nat.

(** The [retryAfter] field of an answer, when it is an integer. *)
Definition retryAfterOf (m : Middleware) : option Z :=
  match m with
  | Respond res =>
      match field "retryAfter" res with
      | VNum q => if Z.eqb (Zpos (Qden q)) 1 then Some (Qnum q) else None
      | _ => None
      end
  | Next _ => None
  end.

(** The error answer of GET /generate/:prompt for a caught error, on a
    response with the header fields [set]. *)
Definition getErrorEnvelope (set : list (string * Value)) (e : Exn)
    (prompt : string) (stamp : string) (elapsed : Z) : HttpResponse :=
  {| statusCode := fst (classify e);
     resHeaders := set;
     payload := JsonBody (VObj
       [ ("success", VBool false);
         ("error", VStr (snd (classify e)));
         ("prompt", VStr prompt);
         ("timestamp", VStr stamp);
         ("processingTimeMs", Js.int elapsed);
         ("method", VStr "GET") ]) |}.

(** The error that [res.set] throws for the prompt header. *)
Definition headerError : Exn :=
  TypeError (String.concat ""
    ["Invalid character in header content ["; Js.quote; "X-Generated-Prompt";
     Js.quote; "]"]).

(** One run of GET /generate/:prompt, where the decoded parameter is a
    string of the model. *)
Definition runGet (param : string) (p : Platform) (st : State)
  : option (Result HttpResponse * State) :=
  match getGenerate param with
  | Some handler => Some (handler p st)
  | None => None
  end.

(** [s] holds no percent sign. *)
Definition plainText (s : string) : bool :=
  forallb (fun c => negb (Ascii.eqb c "%")) (list_ascii_of_string s).

(** The 200 answer of GET /generate/:prompt. *)
Definition imageAnswer (bytes : list byte) (prompt : string) (elapsed : Z)
  : HttpResponse :=
  {| statusCode := 200;
     resHeaders :=
       [ ("Content-Type", VStr "image/png");
         ("Content-Length", Js.int (Z.of_nat (List.length bytes)));
         ("X-Generated-Prompt", VStr prompt);
         ("X-Processing-Time", Js.int elapsed) ];
     payload := Buffer bytes |}.

(** A provider that cannot be reached: every call rejects with [reason]. *)
Definition unreachable (e : Env) (reason : string) : Platform :=
  {| env := e;
     upstream := fun _ _ => Rejected reason;
     clock := fun n => 1692786600000 + 5 * Z.of_nat n;
     random := fun n => Z.of_nat n |}.

(** ** The start-up check of the server (the main file, which follows the
    service in src/services/cloudflare.js) *)

Definition requiredEnvVars : list string :=
  ["CLOUDFLARE_ACCOUNT_ID"; "CLOUDFLARE_API_TOKEN"].

(** [process.env[envVar]] for the variables that [Env] holds. *)
Definition processEnv (e : Env) (envVar : string) : option string :=
  if String.eqb envVar "CLOUDFLARE_ACCOUNT_ID" then CLOUDFLARE_ACCOUNT_ID e
  else if String.eqb envVar "CLOUDFLARE_API_TOKEN" then CLOUDFLARE_API_TOKEN e
  else None.

Definition missingEnvVars (e : Env) : list string :=
  List.filter (fun envVar => unset (processEnv e envVar)) requiredEnvVars.

(** The first warning of the start-up check, when it gives one. *)
Definition startupWarning (e : Env) : option string :=
  if Z.of_nat (List.length (missingEnvVars e)) >? 0 then
    Some (String.append "Missing environment variables: "
                        (String.concat ", " (missingEnvVars e)))
  else None.

(** ** The logger (src/utils/logger.js)

    Its arguments are strings, as at the calls in the routes; the reading
    of the clock and the level in force are passed in. *)

Module Logger.

Definition ERROR : Z := 0.
Definition WARN : Z := 1.
Definition INFO : Z := 2.
Definition DEBUG : Z := 3.

(** Upper-casing of one code unit below 256, in UTF-16 code units: a-z and
    U+00E0..U+00FE except the division sign U+00F7 move down by 32, the
    micro sign becomes U+039C, the sharp s becomes SS and U+00FF becomes
    U+0178. *)
Definition upperUnits (c : ascii) : list Z :=
  let n := Str.code c in
  if (97 <=? n) && (n <=? 122) then [n - 32]
  else if n =? 181 then [924]
  else if n =? 223 then [83; 83]
  else if n =? 255 then [376]
  else if (224 <=? n) && (n <=? 254) && negb (n =? 247) then [n - 32]
  else [n].

(** [s.toUpperCase()], as code units *)
Definition toUpperCase (s : string) : list Z :=
  List.flat_map upperUnits (list_ascii_of_string s).

(** The code units of a string. *)
Definition units (s : string) : list Z :=
  List.map Str.code (list_ascii_of_string s).

(** [LogLevel[key]] for an upper-cased key.  Such a key holds no letter
    a-z, so it names none of the properties inherited from
    [Object.prototype]. *)
Definition LogLevel (key : list Z) : option Z :=
  if decide (key = units "ERROR") then Some ERROR
  else if decide (key = units "WARN") then Some WARN
  else if decide (key = units "INFO") then Some INFO
  else if decide (key = units "DEBUG") then Some DEBUG
  else None.

(** [currentLogLevel], from the value of [process.env.LOG_LEVEL] *)
Definition currentLogLevel (LOG_LEVEL : option string) : Z :=
  if unset LOG_LEVEL then INFO
  else
    match LogLevel (toUpperCase (default "" LOG_LEVEL)) with
    | Some level => if level =? 0 then INFO else level
    | None => INFO
    end.

Definition formatLogMessage (level : string) (now : Z) (args : list string)
  : string :=
  let timestamp := Date.toISOString now in
  let message := String.concat " " args in
  String.concat "" ["["; timestamp; "] ["; level; "] "; message].

(** The methods of [console] that the logger writes to. *)
Inductive Console :=
| ConsoleError
| ConsoleWarn
| ConsoleDebug
| ConsoleLog.

(** [log]: what is written, and where, if anything. *)
Definition log (current now : Z) (level : Z) (levelName : string)
    (args : list string) : option (Console * string) :=
  if level <=? current then
    let formattedMessage := formatLogMessage levelName now args in
    Some (if level =? ERROR then ConsoleError
          else if level =? WARN then ConsoleWarn
          else if level =? DEBUG then ConsoleDebug
          else ConsoleLog,
          formattedMessage)
  else None.

Definition error (current now : Z) (args : list string) :=
  log current now ERROR "ERROR" args.

Definition warn (current now : Z) (args : list string) :=
  log current now WARN "WARN" args.

Definition info (current now : Z) (args : list string) :=
  log current now INFO "INFO" args.

Definition debug (current now : Z) (args : list string) :=
  log current now DEBUG "DEBUG" args.

(** [setLevel]: its result and the level in force afterwards.
    [currentLogLevel] is declared [const], so the assignment throws. *)
Definition setLevel (current now : Z) (level : string)
  : Result (option (Console * string)) * Z :=
  match LogLevel (toUpperCase level) with
  | Some newLevel =>
      (Throw (TypeError "Assignment to constant variable."), current)
  | None =>
      (Ok (warn current now
             [String.concat ""
                ["Invalid log level: "; level;
                 ". Valid levels: ERROR, WARN, INFO, DEBUG"]]),
       current)
  end.

(** [getLevel] *)
Definition getLevel (current : Z) : option string :=
  List.find (fun key => match LogLevel (units key) with
                        | Some level => level =? current
                        | None => false
                        end)
            ["ERROR"; "WARN"; "INFO"; "DEBUG"].

End Logger.

(** [t] is made of the letters a-z without the letter s. *)
Definition plainWord (t : string) : bool :=
  lowerWord t && negb (Str.includes "s" t).

(** [a] is one of the letters a-z and not the letter s. *)
Definition plainLetter (a : ascii) : bool :=
  isLower a && negb (Ascii.eqb a "s").

(** The code units of the capitals of a word of letters a-z. *)
Definition capitals (t : string) : list Z :=
  List.map (fun a => Str.code a - 32) (list_ascii_of_string t).

(** * Properties *)

#[local] Arguments String.append !_ _ / : simpl nomatch.

(** Settle a comparison that the hypotheses decide. *)
Ltac decided b v :=
  replace b with v
    by (symmetry; rewrite ?Z.gtb_ltb;
        first [apply Z.ltb_lt | apply Z.ltb_ge | apply Z.leb_le | apply Z.leb_gt];
        lia).

(** * Characters *)

Lemma allAscii_complete (c : ascii) : In c allAscii.
Proof.
  rewrite <- (ascii_nat_embedding c). apply in_map, in_seq.
  pose proof (nat_ascii_bounded c). lia.
Qed.

Lemma forall_ascii2 (P : ascii -> ascii -> bool) :
  forallb (fun c => forallb (P c) allAscii) allAscii = true ->
  forall c t, P c t = true.
Proof.
  intros H c t. rewrite forallb_forall in H.
  specialize (H c (allAscii_complete c)). rewrite forallb_forall in H.
  apply H, allAscii_complete.
Qed.

Lemma lowerChar_sameLetter c t :
  isLower t = true -> Ascii.eqb (Str.lowerChar c) t = sameLetter c t.
Proof.
  intros Ht.
  pose proof (forall_ascii2
    (fun c t => implb (isLower t)
                  (Bool.eqb (Ascii.eqb (Str.lowerChar c) t) (sameLetter c t)))) as H.
  specialize (H ltac:(vm_compute; reflexivity) c t). cbv beta in H.
  rewrite Ht in H. simpl in H. now apply eqb_prop in H.
Qed.

Lemma lowerChar_sameLetter_sym c t :
  isLower t = true -> Ascii.eqb t (Str.lowerChar c) = sameLetter c t.
Proof. intros Ht. rewrite Ascii.eqb_sym. now apply lowerChar_sameLetter. Qed.

Lemma sameLetter_not_space c t :
  isLower t = true -> sameLetter c t = true -> Str.isWhiteSpace c = false.
Proof.
  intros Ht Hc.
  pose proof (forall_ascii2
    (fun c t => implb (isLower t && sameLetter c t) (negb (Str.isWhiteSpace c)))) as H.
  specialize (H ltac:(vm_compute; reflexivity) c t). cbv beta in H.
  rewrite Ht, Hc in H. simpl in H. now destruct (Str.isWhiteSpace c).
Qed.

(** * Words, prefixes and occurrences *)

Lemma len_nonneg s : 0 <= Str.len s.
Proof. unfold Str.len. lia. Qed.

Lemma len_cons c s : Str.len (String c s) = 1 + Str.len s.
Proof.
  unfold Str.len. change (String.length (String c s)) with (S (String.length s)).
  lia.
Qed.

Lemma len_append s u : Str.len (String.append s u) = Str.len s + Str.len u.
Proof.
  induction s as [|c s IH]; [reflexivity|].
  change (String.append (String c s) u) with (String c (String.append s u)).
  rewrite !len_cons, IH. lia.
Qed.

Lemma spells_len w t : spells w t = true -> Str.len w = Str.len t.
Proof.
  revert t. induction w as [|c w IH]; intros [|a t]; simpl; try discriminate; auto.
  intros H. apply andb_prop in H as [_ H]. rewrite !len_cons, (IH _ H). reflexivity.
Qed.

(** A prefix test on the lower-cased text is a spelling of the word at the
    front of the text. *)
Lemma startsWith_lower t s :
  lowerWord t = true ->
  Str.startsWith t (Str.toLowerCase s) = true <->
  exists w post, s = String.append w post /\ spells w t = true.
Proof.
  revert s. induction t as [|a t IH]; intros s Ht.
  - split; [intros _ | auto]. exists EmptyString, s. auto.
  - simpl in Ht. apply andb_prop in Ht as [Ha Ht].
    destruct s as [|c s]; simpl.
    + split; [discriminate|]. intros ([|c w] & post & E & H); simpl in *; discriminate.
    + rewrite (lowerChar_sameLetter_sym c a Ha). rewrite andb_true_iff, (IH s Ht).
      split.
      * intros (Hc & w & post & -> & Hw). exists (String c w), post. simpl.
        now rewrite Hc, Hw.
      * intros ([|c' w] & post & E & H); simpl in H; [discriminate|].
        simpl in E. injection E as -> ->. apply andb_prop in H as [Hc Hw]. eauto.
Qed.

Lemma append_assoc (a b c : string) :
  String.append (String.append a b) c = String.append a (String.append b c).
Proof. induction a as [|x a IH]; simpl; [reflexivity | f_equal; exact IH]. Qed.

Lemma append_empty_r (a : string) : String.append a EmptyString = a.
Proof. induction a as [|x a IH]; simpl; [reflexivity | f_equal; exact IH]. Qed.

Lemma includes_cons t c s :
  Str.includes t (String c s) = Str.startsWith t (String c s) || Str.includes t s.
Proof. reflexivity. Qed.

Lemma occursCI_empty t : occursCI t EmptyString <-> spells EmptyString t = true.
Proof.
  split.
  - intros ([|? ?] & [|? ?] & [|? ?] & E & H); simpl in E; try discriminate. exact H.
  - intros H. exists EmptyString, EmptyString, EmptyString. auto.
Qed.

Lemma occursCI_cons t c s :
  occursCI t (String c s) <->
  (exists w post, String c s = String.append w post /\ spells w t = true)
  \/ occursCI t s.
Proof.
  split.
  - intros ([|x pre] & w & post & E & H); simpl in E.
    + left. eauto.
    + right. injection E as _ ->. exists pre, w, post. auto.
  - intros [(w & post & E & H) | (pre & w & post & -> & H)].
    + exists EmptyString, w, post. auto.
    + exists (String c pre), w, post. auto.
Qed.

(** [includes] on the lower-cased text finds exactly the case-insensitive
    occurrences of a lower-case word. *)
Lemma includes_lower t s :
  lowerWord t = true ->
  Str.includes t (Str.toLowerCase s) = true <-> occursCI t s.
Proof.
  intros Ht. induction s as [|c s IH].
  - rewrite occursCI_empty. simpl. rewrite orb_false_r.
    change EmptyString with (Str.toLowerCase EmptyString) at 1.
    rewrite (startsWith_lower t EmptyString Ht). split.
    + intros ([|? ?] & [|? ?] & E & H); simpl in E; try discriminate. exact H.
    + intros H. exists EmptyString, EmptyString. auto.
  - rewrite occursCI_cons, <- IH.
    change (Str.toLowerCase (String c s))
      with (String (Str.lowerChar c) (Str.toLowerCase s)).
    rewrite includes_cons, orb_true_iff.
    change (String (Str.lowerChar c) (Str.toLowerCase s))
      with (Str.toLowerCase (String c s)).
    now rewrite (startsWith_lower t (String c s) Ht).
Qed.

(** * Trimming *)

Lemma spells_head w t :
  lowerWord t = true -> spells w t = true -> t <> EmptyString ->
  exists c w', w = String c w' /\ Str.isWhiteSpace c = false.
Proof.
  destruct w as [|c w], t as [|a t]; simpl; try discriminate; try congruence.
  intros Ht H _. apply andb_prop in Ht as [Ha _]. apply andb_prop in H as [Hc _].
  exists c, w. split; [reflexivity|]. eapply sameLetter_not_space; eauto.
Qed.

Lemma trimStart_occurs t s :
  lowerWord t = true -> t <> EmptyString ->
  occursCI t s -> occursCI t (Str.trimStart s).
Proof.
  intros Ht Hne (pre & w & post & -> & Hw).
  induction pre as [|c pre IH]; simpl.
  - destruct (spells_head w t Ht Hw Hne) as (c & w' & -> & Hc). simpl. rewrite Hc.
    exists EmptyString, (String c w'), post. auto.
  - destruct (Str.isWhiteSpace c); [exact IH|].
    exists (String c pre), w, post. auto.
Qed.

Lemma trimEnd_spelled w t post :
  lowerWord t = true -> spells w t = true -> t <> EmptyString ->
  exists post', Str.trimEnd (String.append w post) = String.append w post'.
Proof.
  revert t. induction w as [|c w IH]; intros [|a t] Ht Hw Hne;
    simpl in Hw; try discriminate; try congruence.
  simpl in Ht. apply andb_prop in Ht as [Ha Ht]. apply andb_prop in Hw as [Hc Hw].
  pose proof (sameLetter_not_space c a Ha Hc) as Hs.
  destruct t as [|b t].
  - destruct w; [|discriminate]. simpl. rewrite Hs.
    destruct (Str.trimEnd post) as [|x r]; [exists EmptyString | exists (String x r)];
      reflexivity.
  - destruct (IH (String b t) Ht Hw ltac:(discriminate)) as (post' & E).
    simpl. rewrite E. destruct w as [|x w]; [discriminate|].
    exists post'. reflexivity.
Qed.

Lemma trimEnd_occurs t s :
  lowerWord t = true -> t <> EmptyString ->
  occursCI t s -> occursCI t (Str.trimEnd s).
Proof.
  intros Ht Hne (pre & w & post & -> & Hw).
  induction pre as [|c pre IH].
  - destruct (trimEnd_spelled w t post Ht Hw Hne) as (post' & E). simpl. rewrite E.
    exists EmptyString, w, post'. auto.
  - destruct IH as (pre' & w' & post' & E & Hw'). simpl. rewrite E.
    destruct (spells_head w' t Ht Hw' Hne) as (x & w'' & -> & _).
    destruct pre' as [|y pre']; simpl.
    + exists (String c EmptyString), (String x w''), post'. auto.
    + exists (String c (String y pre')), (String x w''), post'. auto.
Qed.

Lemma trim_occurs t s :
  lowerWord t = true -> t <> EmptyString ->
  occursCI t s -> occursCI t (Str.trim s).
Proof. intros. apply trimEnd_occurs, trimStart_occurs; assumption. Qed.

Lemma trimStart_suffix s : exists a, s = String.append a (Str.trimStart s).
Proof.
  induction s as [|c s (a & IH)]; simpl.
  - exists EmptyString. reflexivity.
  - destruct (Str.isWhiteSpace c).
    + exists (String c a). simpl. now rewrite <- IH.
    + exists EmptyString. reflexivity.
Qed.

Lemma trimEnd_prefix s : exists b, s = String.append (Str.trimEnd s) b.
Proof.
  induction s as [|c s (b & IH)]; simpl.
  - exists EmptyString. reflexivity.
  - destruct (Str.trimEnd s) as [|x r].
    + simpl in IH. destruct (Str.isWhiteSpace c).
      * exists (String c s). reflexivity.
      * exists s. reflexivity.
    + exists b. simpl. simpl in IH. now rewrite <- IH.
Qed.

Lemma occurs_trim t s : occursCI t (Str.trim s) -> occursCI t s.
Proof.
  intros (pre & w & post & E & Hw).
  destruct (trimStart_suffix s) as (a & Ea).
  destruct (trimEnd_prefix (Str.trimStart s)) as (b & Eb).
  fold (Str.trim s) in Eb. rewrite E in Eb. rewrite Eb in Ea.
  exists (String.append a pre), w, (String.append post b). split; [|exact Hw].
  rewrite Ea. now rewrite !append_assoc.
Qed.

Lemma occursCI_len t s : occursCI t s -> Str.len t <= Str.len s.
Proof.
  intros (pre & w & post & -> & Hw). rewrite !len_append, (spells_len _ _ Hw).
  pose proof (len_nonneg pre). pose proof (len_nonneg post). lia.
Qed.

Lemma trimStart_idem s : Str.trimStart (Str.trimStart s) = Str.trimStart s.
Proof.
  induction s as [|c s IH]; simpl; [reflexivity|].
  destruct (Str.isWhiteSpace c) eqn:E; [exact IH|]. simpl. now rewrite E.
Qed.

Lemma trimEnd_idem s : Str.trimEnd (Str.trimEnd s) = Str.trimEnd s.
Proof.
  induction s as [|c s IH]; simpl; [reflexivity|].
  destruct (Str.trimEnd s) as [|x r] eqn:E.
  - destruct (Str.isWhiteSpace c) eqn:Hc; simpl; [reflexivity | now rewrite Hc].
  - change (Str.trimEnd (String c (String x r)))
      with (match Str.trimEnd (String x r) with
            | EmptyString => if Str.isWhiteSpace c then EmptyString
                             else String c EmptyString
            | r' => String c r'
            end).
    now rewrite IH.
Qed.

Lemma trimStart_trimEnd u :
  Str.trimStart u = u -> Str.trimStart (Str.trimEnd u) = Str.trimEnd u.
Proof.
  destruct u as [|c r]; [reflexivity|]. simpl.
  destruct (Str.isWhiteSpace c) eqn:Hc.
  - intros E. exfalso.
    destruct (trimStart_suffix r) as (a & Ea). rewrite E in Ea.
    apply (f_equal Str.len) in Ea. rewrite len_append, len_cons in Ea.
    pose proof (len_nonneg a). lia.
  - intros _. destruct (Str.trimEnd r); simpl; now rewrite Hc.
Qed.

Lemma trim_idem s : Str.trim (Str.trim s) = Str.trim s.
Proof.
  unfold Str.trim. rewrite (trimStart_trimEnd _ (trimStart_idem s)).
  apply trimEnd_idem.
Qed.

(** * The shape of timestamps *)

Lemma holdsFrom_spec P fuel : forall i n,
  holdsFrom fuel i P = true -> i <= n < i + Z.of_nat fuel -> P n = true.
Proof.
  induction fuel as [|k IH]; intros i n H Hn; [lia|].
  simpl in H. apply andb_prop in H as [Hi H].
  destruct (Z.eq_dec n i) as [-> | Hne]; [exact Hi|].
  apply (IH (i + 1)); [exact H | lia].
Qed.

Lemma shaped_append p1 p2 s1 s2 :
  shaped p1 s1 = true -> shaped p2 s2 = true ->
  shaped (String.append p1 p2) (String.append s1 s2) = true.
Proof.
  revert s1. induction p1 as [|p p1 IH]; intros [|c s1]; simpl; try discriminate; auto.
  intros H H2. apply andb_prop in H as [Hc H]. rewrite Hc. simpl. now apply IH.
Qed.

Lemma concat_pieces x y l :
  String.concat "" (x :: y :: l) = String.append x (String.concat "" (y :: l)).
Proof. reflexivity. Qed.

Lemma padded2_shape n : 0 <= n < 100 -> shaped "dd" (Date.padded 2 n) = true.
Proof.
  intros H.
  apply (holdsFrom_spec (fun n => shaped "dd" (Date.padded 2 n)) (Z.to_nat 100) 0 n);
    [vm_compute; reflexivity | lia].
Qed.

Lemma padded3_shape n : 0 <= n < 1000 -> shaped "ddd" (Date.padded 3 n) = true.
Proof.
  intros H.
  apply (holdsFrom_spec (fun n => shaped "ddd" (Date.padded 3 n)) (Z.to_nat 1000) 0 n);
    [vm_compute; reflexivity | lia].
Qed.

Lemma year_shape y : 0 <= y <= 9999 -> shaped "dddd" (Date.year y) = true.
Proof.
  intros H.
  apply (holdsFrom_spec (fun y => shaped "dddd" (Date.year y)) (Z.to_nat 10000) 0 y);
    [vm_compute; reflexivity | lia].
Qed.

(** Every day of an era falls in one of its 400 years (January and
    February belong to the year after), on a day of a month. *)
Lemma dayOfEra_range doe :
  0 <= doe < 146097 ->
  let '(y, m, d) := Date.dayOfEra doe in
  0 <= y <= 400 /\ (doe < 146037 -> y <= 399) /\ 1 <= m <= 12 /\ 1 <= d <= 31.
Proof.
  intros H. unfold Date.dayOfEra.
  set (yoe := (doe - doe / 1460 + doe / 36524 - doe / 146096) / 365).
  set (doy := doe - (365 * yoe + yoe / 4 - yoe / 100)).
  set (mp := (5 * doy + 2) / 153).
  assert (0 <= yoe <= 399 /\ 0 <= doy <= 365) as [Hy Hd]
    by (subst doy yoe; Z.div_mod_to_equations; lia).
  assert (0 <= mp <= 11) as Hmp by (subst mp; Z.div_mod_to_equations; lia).
  assert (1 <= doy - (153 * mp + 2) / 5 + 1 <= 31) as Hday
    by (subst mp; Z.div_mod_to_equations; lia).
  assert (doe < 146037 -> yoe = 399 -> mp < 10) as Hlast.
  { intros Hlt Hyoe. subst mp doy. rewrite Hyoe.
    assert (yoe = 399 -> 145731 <= doe) by (subst yoe; Z.div_mod_to_equations; lia).
    Z.div_mod_to_equations. lia. }
  destruct (mp <? 10) eqn:E1; [apply Z.ltb_lt in E1 | apply Z.ltb_ge in E1].
  - decided (mp + 3 <=? 2) false. lia.
  - decided (mp - 9 <=? 2) true.
    split; [lia|]. split; [|lia]. intros Hlt.
    assert (yoe <> 399) by (intros Hyoe; specialize (Hlast Hlt Hyoe); lia). lia.
Qed.

Lemma civil_range days :
  0 <= days < 2932897 ->
  let '(y, m, d) := Date.civil days in
  0 <= y <= 9999 /\ 1 <= m <= 12 /\ 1 <= d <= 31.
Proof.
  intros H. unfold Date.civil.
  set (z := days + 719468). set (era := z / 146097).
  assert (4 <= era <= 24) as Hera.
  { unfold era, z. split.
    - apply Z.div_le_lower_bound; lia.
    - apply Z.lt_succ_r. apply Z.div_lt_upper_bound; lia. }
  assert (0 <= z - era * 146097 < 146097) as Hdoe.
  { unfold era. pose proof (Z.div_mod z 146097 ltac:(lia)).
    pose proof (Z.mod_pos_bound z 146097 ltac:(lia)). lia. }
  pose proof (dayOfEra_range _ Hdoe) as Hc.
  destruct (Date.dayOfEra (z - era * 146097)) as [[y m] d].
  destruct Hc as (Hy & Hlast & Hm & Hd).
  assert (era = 24 -> z - era * 146097 < 146037) by (unfold z in *; lia).
  lia.
Qed.

(** For a time between the years 0 and 9999 [toISOString] has the form
    YYYY-MM-DDTHH:mm:ss.sssZ. *)
Lemma toISOString_shape ms :
  0 <= ms < 253402300800000 -> iso8601 (Date.toISOString ms) = true.
Proof.
  intros H. unfold iso8601, Date.toISOString.
  assert (0 <= ms / Date.msPerDay < 2932897) as Hd.
  { unfold Date.msPerDay. split.
    - apply Z.div_pos; lia.
    - apply Z.div_lt_upper_bound; lia. }
  pose proof (civil_range _ Hd) as Hc.
  destruct (Date.civil (ms / Date.msPerDay)) as [[y m] d]. destruct Hc as (Hy & Hm & Hdd).
  pose proof (Z.mod_pos_bound ms Date.msPerDay ltac:(unfold Date.msPerDay; lia)) as Ht.
  set (t := ms mod Date.msPerDay) in *. unfold Date.msPerDay in Ht.
  rewrite !concat_pieces. change (String.concat "" ["Z"]) with "Z".
  change "dddd-dd-ddTdd:dd:dd.dddZ"
    with (String.append "dddd" (String.append "-" (String.append "dd"
           (String.append "-" (String.append "dd" (String.append "T"
           (String.append "dd" (String.append ":" (String.append "dd"
           (String.append ":" (String.append "dd" (String.append "."
           (String.append "ddd" "Z"))))))))))))).
  repeat (apply shaped_append; [|]); try reflexivity.
  - now apply year_shape.
  - apply padded2_shape. lia.
  - apply padded2_shape. lia.
  - apply padded2_shape. split; [apply Z.div_pos; lia | apply Z.div_lt_upper_bound; lia].
  - apply padded2_shape. pose proof (Z.mod_pos_bound (t / 60000) 60 ltac:(lia)). lia.
  - apply padded2_shape. pose proof (Z.mod_pos_bound (t / 1000) 60 ltac:(lia)). lia.
  - apply padded3_shape. apply Z.mod_pos_bound. lia.
Qed.

(** * Base64 *)

Lemma list_ind3 {A} (P : list A -> Prop) :
  P [] -> (forall a, P [a]) -> (forall a b, P [a; b]) ->
  (forall a b c l, P l -> P (a :: b :: c :: l)) ->
  forall l, P l.
Proof.
  intros H0 H1 H2 H3. fix IH 1.
  intros [|a [|b [|c l]]]; [apply H0 | apply H1 | apply H2 | apply H3, IH].
Qed.

Lemma octet_range b : 0 <= Base64.octet b < 256.
Proof.
  unfold Base64.octet. pose proof (Byte.to_N_bounded b). lia.
Qed.

Lemma toByte_octet n b : n mod 256 = Base64.octet b -> Base64.toByte n = b.
Proof.
  intros E. unfold Base64.toByte. rewrite E. unfold Base64.octet.
  rewrite N2Z.id, Byte.of_to_N. reflexivity.
Qed.

Lemma sextets_char i r :
  0 <= i < 64 ->
  Base64.sextets (String (Base64.char i) r) = i :: Base64.sextets r.
Proof.
  intros H. cbn [Base64.sextets].
  assert (Base64.indexFrom 0 (Base64.char i) Base64.alphabet = Some i) as ->;
    [|reflexivity].
  pose proof (holdsFrom_spec
    (fun i => match Base64.indexFrom 0 (Base64.char i) Base64.alphabet with
              | Some j => j =? i
              | None => false
              end) 64 0 i ltac:(vm_compute; reflexivity) ltac:(lia)) as Hi.
  cbv beta in Hi.
  destruct (Base64.indexFrom 0 (Base64.char i) Base64.alphabet); [|discriminate].
  apply Z.eqb_eq in Hi. now subst.
Qed.

Lemma sextets_pad r : Base64.sextets (String Base64.pad r) = [].
Proof. reflexivity. Qed.

(** Decoding the encoding of a buffer gives the buffer back. *)
Lemma decode_encode bs : Base64.decode (Base64.encode bs) = bs.
Proof.
  unfold Base64.decode. induction bs as [|a|a b|a b c rest IH] using list_ind3.
  - reflexivity.
  - pose proof (octet_range a). cbn [Base64.encode].
    rewrite !sextets_char, sextets_pad
      by (unfold Base64.group; Z.div_mod_to_equations; lia).
    cbn [Base64.octets]. f_equal. apply toByte_octet.
    unfold Base64.regroup, Base64.group. Z.div_mod_to_equations. lia.
  - pose proof (octet_range a). pose proof (octet_range b). cbn [Base64.encode].
    rewrite !sextets_char, sextets_pad
      by (unfold Base64.group; Z.div_mod_to_equations; lia).
    cbn [Base64.octets]. f_equal; [|f_equal]; apply toByte_octet;
      unfold Base64.regroup, Base64.group; Z.div_mod_to_equations; lia.
  - pose proof (octet_range a). pose proof (octet_range b). pose proof (octet_range c).
    cbn [Base64.encode].
    rewrite !sextets_char by (unfold Base64.group; Z.div_mod_to_equations; lia).
    cbn [Base64.octets]. rewrite IH. f_equal; [|f_equal; [|f_equal]];
      apply toByte_octet;
      unfold Base64.regroup, Base64.group; Z.div_mod_to_equations; lia.
Qed.

(** * The prompt validator *)

Lemma terms_lower t :
  In t prohibitedTerms ->
  lowerWord t = true /\ t <> EmptyString /\ 4 <= Str.len t.
Proof.
  unfold prohibitedTerms. simpl.
  intros [<- | [<- | [<- | [<- | []]]]]; (split; [reflexivity | split; [discriminate | vm_compute; discriminate]]).
Qed.

Lemma prohibited_trim s : prohibited (Str.trim s) <-> prohibited s.
Proof.
  split; intros (t & Ht & H); exists t; (split; [exact Ht|]).
  - now apply occurs_trim.
  - destruct (terms_lower t Ht) as (Hl & Hne & _). now apply trim_occurs.
Qed.

Lemma prohibited_len s : prohibited s -> 4 <= Str.len (Str.trim s).
Proof.
  intros H. apply prohibited_trim in H as (t & Ht & H).
  destruct (terms_lower t Ht) as (_ & _ & Hlen). apply occursCI_len in H. lia.
Qed.

Lemma scan_prohibited s :
  existsb (fun term => Str.includes term (Str.toLowerCase s)) prohibitedTerms = true
  <-> prohibited s.
Proof.
  rewrite existsb_exists. unfold prohibited.
  split; intros (t & Ht & H); exists t; (split; [exact Ht|]);
    destruct (terms_lower t Ht) as (Hl & _); now apply (includes_lower t s Hl).
Qed.

Lemma truthy_text s : Js.truthy (VStr s) = true <-> s <> EmptyString.
Proof.
  simpl. rewrite negb_true_iff. split.
  - intros H ->. discriminate.
  - intros H. apply String.eqb_neq. exact H.
Qed.

Lemma trim_empty : Str.trim EmptyString = EmptyString.
Proof. reflexivity. Qed.

(** [isValidPrompt] on a string: the length window and the term scan. *)
Lemma isValidPrompt_text s :
  isValidPrompt (VStr s) = true <->
  3 <= Str.len (Str.trim s) <= 2000 /\ ~ prohibited (Str.trim s).
Proof.
  unfold isValidPrompt. rewrite <- scan_prohibited.
  change (Js.typeof (VStr s)) with "string". change (String.eqb "string" "string") with true.
  rewrite orb_false_r.
  destruct (Js.truthy (VStr s)) eqn:Hs; simpl.
  - destruct (Str.len (Str.trim s) <? 3) eqn:H3; simpl.
    { split; [discriminate | lia]. }
    destruct (Str.len (Str.trim s) >? 2000) eqn:H2.
    { split; [discriminate | lia]. }
    rewrite negb_true_iff, not_true_iff_false. split; [intros H | tauto].
    split; [lia | exact H].
  - split; [discriminate|]. intros [H _].
    assert (s = EmptyString) as ->.
    { destruct (string_dec s EmptyString) as [|n]; [assumption|].
      apply truthy_text in n. congruence. }
    rewrite trim_empty in H. change (Str.len EmptyString) with 0 in H. lia.
Qed.

Lemma get_set k v fields : Js.get k (Js.set k v fields) = v.
Proof.
  induction fields as [|[k' v'] rest IH]; simpl.
  - now rewrite String.eqb_refl.
  - destruct (String.eqb k k') eqn:E; simpl; rewrite E; [reflexivity | exact IH].
Qed.

(** The three outcomes of [validatePrompt] on a string prompt. *)
Lemma validatePrompt_text req s :
  Js.get "prompt" (reqBody req) = VStr s ->
  validatePrompt req =
    if String.eqb s "" then
      Respond (respondJson 400 (VObj
        [ ("success", VBool false);
          ("error", VStr (errorText MissingField));
          ("message", VStr (messageText MissingField));
          ("example", VObj [("prompt", VStr "A beautiful landscape with mountains and a lake at sunset")]) ]))
    else if isValidPrompt (VStr s) then
      Next {| ip := ip req;
              reqBody := Js.set "prompt" (VStr (Str.trim s)) (reqBody req) |}
    else
      Respond (respondJson 400 (VObj
        [ ("success", VBool false);
          ("error", VStr "Invalid prompt");
          ("message", VStr (if Str.len (Str.trim s) <? 3 then messageText TooShort
                            else if Str.len (Str.trim s) >? 2000 then messageText TooLong
                            else messageText ProhibitedContent));
          ("promptLength", Js.int (Str.len (Str.trim s)));
          ("maxLength", Js.int 2000);
          ("minLength", Js.int 3) ])).
Proof.
  intros Hp. unfold validatePrompt. rewrite Hp.
  change (Js.truthy (VStr s)) with (negb (String.eqb s "")).
  rewrite negb_involutive.
  destruct (String.eqb s ""); [reflexivity|].
  change (Js.typeof (VStr s)) with "string". change (String.eqb "string" "string") with true.
  cbv [negb].
  destruct (isValidPrompt (VStr s)); [reflexivity|].
  destruct (Str.len (Str.trim s) <? 3); [reflexivity|].
  destruct (Str.len (Str.trim s) >? 2000); reflexivity.
Qed.

Lemma rejects_invalid (r : Reason) (n : Z) :
  errorText r = "Invalid prompt" ->
  rejects r (Respond (respondJson 400 (VObj
        [ ("success", VBool false);
          ("error", VStr "Invalid prompt");
          ("message", VStr (messageText r));
          ("promptLength", Js.int n);
          ("maxLength", Js.int 2000);
          ("minLength", Js.int 3) ]))).
Proof.
  intros E. eexists. split; [reflexivity|]. split; [reflexivity|].
  split; [rewrite E|]; reflexivity.
Qed.

Lemma valid_not_empty s : isValidPrompt (VStr s) = true -> String.eqb s "" = false.
Proof.
  intros Hv. apply isValidPrompt_text in Hv as [Hlen _].
  apply String.eqb_neq. intros ->. rewrite trim_empty in Hlen.
  change (Str.len EmptyString) with 0 in Hlen. lia.
Qed.

(** A valid string prompt is handed on, trimmed. *)
Lemma validatePrompt_valid req s :
  Js.get "prompt" (reqBody req) = VStr s ->
  isValidPrompt (VStr s) = true ->
  validatePrompt req =
    Next {| ip := ip req;
            reqBody := Js.set "prompt" (VStr (Str.trim s)) (reqBody req) |}.
Proof.
  intros Hp Hv. rewrite (validatePrompt_text req s Hp), (valid_not_empty s Hv), Hv.
  reflexivity.
Qed.

(** C6.  A string prompt whose trimmed form has between 3 and 2000
    characters and contains no case-insensitive occurrence of "nsfw",
    "explicit", "gore" or "violence" passes [validatePrompt]: the middleware
    calls [next()], and the request handed to the POST handler carries the
    trimmed form of the input as its prompt. *)
Theorem validatePrompt_accepts (req : Request) (s : string) :
  Js.get "prompt" (reqBody req) = VStr s ->
  3 <= Str.len (Str.trim s) <= 2000 ->
  ~ prohibited (Str.trim s) ->
  exists req',
    validatePrompt req = Next req' /\
    ip req' = ip req /\
    Js.get "prompt" (reqBody req') = VStr (Str.trim s) /\
    postGenerate req = postHandler req'.
Proof.
  intros Hp Hlen Hno.
  assert (isValidPrompt (VStr s) = true) as Hv by (apply isValidPrompt_text; auto).
  pose proof (validatePrompt_valid req s Hp Hv) as E.
  eexists. split; [exact E|]. split; [reflexivity|]. split.
  - apply get_set.
  - unfold postGenerate. now rewrite E.
Qed.

Lemma validatePrompt_accepts_witness :
  exists req',
    validatePrompt (textRequest "203.0.113.7" "  a cat ") = Next req' /\
    ip req' = "203.0.113.7" /\
    Js.get "prompt" (reqBody req') = VStr "a cat" /\
    postGenerate (textRequest "203.0.113.7" "  a cat ") = postHandler req'.
Proof.
  apply (validatePrompt_accepts (textRequest "203.0.113.7" "  a cat ") "  a cat ").
  - reflexivity.
  - vm_compute. split; discriminate.
  - intros H. apply scan_prohibited in H. vm_compute in H. discriminate.
Defined.

(** C7 as stated fails: a prompt that contains "nsfw" and is longer than
    2000 characters is rejected with the TooLong message, not with the
    ProhibitedContent one. *)
Lemma prohibited_long_is_TooLong :
  prohibited longProhibited /\
  rejects TooLong (validatePrompt (textRequest "203.0.113.7" longProhibited)) /\
  ~ rejects ProhibitedContent (validatePrompt (textRequest "203.0.113.7" longProhibited)).
Proof.
  assert (validatePrompt (textRequest "203.0.113.7" longProhibited) =
          Respond (respondJson 400 (VObj
            [ ("success", VBool false);
              ("error", VStr "Invalid prompt");
              ("message", VStr (messageText TooLong));
              ("promptLength", Js.int 2004);
              ("maxLength", Js.int 2000);
              ("minLength", Js.int 3) ]))) as E by (vm_compute; reflexivity).
  split; [|split].
  - exists "nsfw". split; [left; reflexivity|].
    exists EmptyString, "nsfw", (Str.replicate 2000 "a"%char). split; reflexivity.
  - rewrite E. now apply rejects_invalid.
  - rewrite E. intros (res & Hres & _ & _ & Hm). injection Hres as <-.
    vm_compute in Hm. discriminate.
Qed.

(** C7, amended.  A string prompt that contains a case-insensitive
    occurrence of "nsfw", "explicit", "gore" or "violence" is always rejected
    with status 400, whatever surrounds the occurrence: with the
    ProhibitedContent message when its trimmed form has at most 2000
    characters, and with the TooLong message when it has more (the length
    tests come first). *)
Theorem validatePrompt_prohibited (req : Request) (s : string) :
  Js.get "prompt" (reqBody req) = VStr s ->
  prohibited s ->
  (Str.len (Str.trim s) <= 2000 -> rejects ProhibitedContent (validatePrompt req)) /\
  (2000 < Str.len (Str.trim s) -> rejects TooLong (validatePrompt req)).
Proof.
  intros Hp Hbad. pose proof (prohibited_len s Hbad) as Hlen.
  assert (isValidPrompt (VStr s) = false) as Hv.
  { apply not_true_iff_false. rewrite isValidPrompt_text, prohibited_trim. tauto. }
  assert (String.eqb s "" = false) as Hs.
  { apply String.eqb_neq. intros ->. rewrite trim_empty in Hlen.
    change (Str.len EmptyString) with 0 in Hlen. lia. }
  rewrite (validatePrompt_text req s Hp), Hs, Hv.
  decided (Str.len (Str.trim s) <? 3) false.
  split; intros H.
  - decided (Str.len (Str.trim s) >? 2000) false.
    now apply rejects_invalid.
  - decided (Str.len (Str.trim s) >? 2000) true.
    now apply rejects_invalid.
Qed.

Lemma validatePrompt_prohibited_witness :
  rejects ProhibitedContent
    (validatePrompt (textRequest "203.0.113.7" "some Gore here")).
Proof.
  destruct (validatePrompt_prohibited (textRequest "203.0.113.7" "some Gore here")
              "some Gore here") as [H _].
  - reflexivity.
  - exists "gore". split; [right; right; left; reflexivity|].
    exists "some ", "Gore", " here". split; reflexivity.
  - apply H. vm_compute. discriminate.
Defined.

(** C8 as stated fails: the empty string has a trimmed form shorter than
    3 characters but is answered as a missing field, not as TooShort. *)
Lemma empty_prompt_is_MissingField :
  Str.len (Str.trim "") < 3 /\
  rejects MissingField (validatePrompt (textRequest "203.0.113.7" "")) /\
  ~ rejects TooShort (validatePrompt (textRequest "203.0.113.7" "")).
Proof.
  split; [reflexivity|]. split.
  - eexists. split; [reflexivity|]. repeat split.
  - intros (res & Hres & _ & He & _). vm_compute in Hres. injection Hres as <-.
    vm_compute in He. discriminate.
Qed.

(** C8, amended.  A non-empty string prompt whose trimmed form has fewer
    than 3 characters is rejected with the TooShort message; the empty
    string is rejected as a missing field; a string prompt whose trimmed
    form has more than 2000 characters is rejected with the TooLong
    message. *)
Theorem validatePrompt_length (req : Request) (s : string) :
  Js.get "prompt" (reqBody req) = VStr s ->
  (s = EmptyString -> rejects MissingField (validatePrompt req)) /\
  (s <> EmptyString -> Str.len (Str.trim s) < 3 ->
   rejects TooShort (validatePrompt req)) /\
  (2000 < Str.len (Str.trim s) -> rejects TooLong (validatePrompt req)).
Proof.
  intros Hp. rewrite (validatePrompt_text req s Hp). split; [|split].
  - intros ->. eexists. split; [reflexivity|]. repeat split.
  - intros Hs Hlen. apply String.eqb_neq in Hs. rewrite Hs.
    replace (isValidPrompt (VStr s)) with false
      by (symmetry; apply not_true_iff_false; rewrite isValidPrompt_text; lia).
    decided (Str.len (Str.trim s) <? 3) true.
    now apply rejects_invalid.
  - intros Hlen.
    assert (String.eqb s "" = false) as Hs.
    { apply String.eqb_neq. intros ->. rewrite trim_empty in Hlen.
      change (Str.len EmptyString) with 0 in Hlen. lia. }
    rewrite Hs.
    replace (isValidPrompt (VStr s)) with false
      by (symmetry; apply not_true_iff_false; rewrite isValidPrompt_text; lia).
    decided (Str.len (Str.trim s) <? 3) false.
    decided (Str.len (Str.trim s) >? 2000) true.
    now apply rejects_invalid.
Qed.

Lemma validatePrompt_length_witness :
  rejects TooShort (validatePrompt (textRequest "203.0.113.7" "ab")).
Proof.
  destruct (validatePrompt_length (textRequest "203.0.113.7" "ab") "ab" eq_refl)
    as (_ & H & _).
  apply H; [discriminate | vm_compute; reflexivity].
Defined.

(** * The upstream client *)

Lemma generateImage_unset prompt p st :
  configured (env p) \/ 
  generateImage prompt p st =
    (Throw (AuthenticationError
       (if unset (CLOUDFLARE_ACCOUNT_ID (env p))
        then "CLOUDFLARE_ACCOUNT_ID environment variable is required"
        else "CLOUDFLARE_API_TOKEN environment variable is required")), st).
Proof.
  unfold configured.
  cbv beta iota zeta delta [generateImage tryCatch bind validateCredentials getEnv throw].
  destruct (unset (CLOUDFLARE_ACCOUNT_ID (env p))); [right; reflexivity|].
  destruct (unset (CLOUDFLARE_API_TOKEN (env p))); [right; reflexivity|].
  left. auto.
Qed.

(** One run of [generateImage] with both credentials configured. *)
Lemma generateImage_configured prompt p st :
  configured (env p) ->
  let rq := requestFor (env p) prompt (random p (draws st)) in
  generateImage prompt p st =
    (match upstream p (List.length (sent st)) rq with
     | Resolved r =>
         if ok r then Ok (Base64.encode (arrayBuffer r))
         else Throw (CloudflareAPIError
                       (match firstErrorMessage (json r) with
                        | Some m => m
                        | None => genericMessage (status r)
                        end) (status r))
     | Rejected reason =>
         Throw (Error (String.append "Image generation failed: " reason))
     end, afterFetch st rq).
Proof.
  intros [Ha Ht].
  cbv beta iota zeta delta [generateImage tryCatch bind validateCredentials getEnv
    throw ret randomSeed fetch processCloudflareResponse requestFor afterFetch].
  rewrite Ha, Ht. cbv beta iota zeta delta [draws reads sent rateLimitStore].
  match goal with
  | |- context [upstream p ?n ?q] => destruct (upstream p n q) as [reason | r]
  end; [reflexivity|].
  destruct (ok r); [reflexivity|]. cbv [negb].
  destruct (json r) as [|[[|[[m|]] rest]|]]; try reflexivity.
  cbv beta iota delta [firstErrorMessage message].
  destruct (String.eqb m ""); reflexivity.
Qed.

Lemma generateImage_reads prompt p st :
  reads (snd (generateImage prompt p st)) = reads st
  /\ rateLimitStore (snd (generateImage prompt p st)) = rateLimitStore st.
Proof.
  destruct (generateImage_unset prompt p st) as [H | ->]; [|split; reflexivity].
  rewrite (generateImage_configured prompt p st H). split; reflexivity.
Qed.

(** C3.  When the provider answers with a non-success status,
    [generateImage] throws a [CloudflareAPIError] that carries that status.
    Its message is the message of the first entry of the [errors] array when
    the body parses and has such a non-empty message, and otherwise the text
    "Cloudflare API request failed with status <code>". *)
Theorem generateImage_rejected (prompt : string) (p : Platform) (st : State)
    (response : FetchResponse) :
  configured (env p) ->
  (forall rq, upstream p (List.length (sent st)) rq = Resolved response) ->
  ok response = false ->
  exists msg,
    fst (generateImage prompt p st) = Throw (CloudflareAPIError msg (status response))
    /\ msg = match firstErrorMessage (json response) with
             | Some m => m
             | None => genericMessage (status response)
             end
    /\ (forall first rest m,
          json response = Parsed (Some (first :: rest)) ->
          message first = Some m -> m <> EmptyString -> msg = m)
    /\ (json response = Unparseable \/ json response = Parsed None
        \/ json response = Parsed (Some [])
        \/ (exists first rest,
              json response = Parsed (Some (first :: rest))
              /\ (message first = None \/ message first = Some EmptyString)) ->
        msg = String.append "Cloudflare API request failed with status "
                            (Str.ofZ (status response))).
Proof.
  intros Hc Hup Hok. eexists. rewrite (generateImage_configured prompt p st Hc).
  rewrite Hup, Hok. split; [reflexivity|]. split; [reflexivity|]. split.
  - intros [first] rest m -> E Hm. simpl in E. subst first. cbn [firstErrorMessage].
    apply String.eqb_neq in Hm. now rewrite Hm.
  - intros [-> | [-> | [-> | ([first] & rest & -> & [E | E])]]];
      try reflexivity; simpl in E; subst first; reflexivity.
Qed.

Lemma generateImage_rejected_witness :
  exists msg,
    fst (generateImage "a cat" (answering sampleEnv quotaResponse) freshState)
      = Throw (CloudflareAPIError msg 429)
    /\ msg = "quota exceeded".
Proof.
  destruct (generateImage_rejected "a cat" (answering sampleEnv quotaResponse)
              freshState quotaResponse) as (msg & E & Hm & _).
  - split; reflexivity.
  - intros rq. reflexivity.
  - reflexivity.
  - exists msg. split; [exact E | exact Hm].
Defined.

(** * The handlers *)

(** One run of the POST handler on a string prompt. *)
Lemma postHandler_text req s p st :
  Js.get "prompt" (reqBody req) = VStr s ->
  postHandler req p st =
    let '(r, st2) := generateImage s p (afterReads 1 st) in
    let elapsed := clock p (reads st2) - clock p (reads st) in
    let stamp := Date.toISOString (clock p (S (reads st2))) in
    (Ok match r with
        | Ok image => successEnvelope image (VStr s) stamp elapsed
        | Throw e => errorEnvelope e (VStr s) stamp elapsed
        end, afterReads 2 st2).
Proof.
  intros Hp.
  cbv beta iota zeta delta [postHandler tryCatch bind dateNow isoNow ret throw].
  rewrite Hp. change {| reads := S (reads st); draws := draws st; sent := sent st;
                        rateLimitStore := rateLimitStore st |} with (afterReads 1 st).
  destruct (generateImage s p (afterReads 1 st)) as [[image | e] st2].
  - reflexivity.
  - unfold errorEnvelope. destruct (classify e) as [code msg]. reflexivity.
Qed.

(** C4.  When the account identifier or the API token is unset (or empty),
    [generateImage] throws an [AuthenticationError] whose message names the
    missing variable ("<NAME> environment variable is required", the account
    identifier first), and leaves the state as it was: no seed is drawn and
    no [fetch] call is sent.  The handler answers such a failure with status
    401. *)
Theorem generateImage_unconfigured (prompt : string) (p : Platform) (st : State) :
  unset (CLOUDFLARE_ACCOUNT_ID (env p)) = true
  \/ unset (CLOUDFLARE_API_TOKEN (env p)) = true ->
  exists msg,
    generateImage prompt p st = (Throw (AuthenticationError msg), st)
    /\ msg = String.append
               (if unset (CLOUDFLARE_ACCOUNT_ID (env p))
                then "CLOUDFLARE_ACCOUNT_ID environment variable"
                else "CLOUDFLARE_API_TOKEN environment variable")
               " is required"
    /\ fst (classify (AuthenticationError msg)) = 401
    /\ forall req s,
         Js.get "prompt" (reqBody req) = VStr s ->
         exists res st',
           postHandler req p st = (Ok res, st')
           /\ statusCode res = 401
           /\ sent st' = sent st.
Proof.
  intros H. eexists.
  assert (forall q stq, generateImage q p stq = (Throw (AuthenticationError
            (if unset (CLOUDFLARE_ACCOUNT_ID (env p))
             then "CLOUDFLARE_ACCOUNT_ID environment variable is required"
             else "CLOUDFLARE_API_TOKEN environment variable is required")), stq)) as G.
  { intros q stq. destruct (generateImage_unset q p stq) as [[Ha Ht] | E]; [|exact E].
    destruct H; congruence. }
  split; [apply G|]. split; [now destruct (unset _)|]. split; [reflexivity|].
  intros req s Hp. rewrite (postHandler_text req s p st Hp), G.
  eexists. eexists. split; [reflexivity|]. split; reflexivity.
Qed.

Lemma generateImage_unconfigured_witness :
  exists msg,
    generateImage "a cat"
      (answering {| CLOUDFLARE_ACCOUNT_ID := None; CLOUDFLARE_API_TOKEN := None |}
                 imageResponse) freshState
      = (Throw (AuthenticationError msg), freshState)
    /\ msg = "CLOUDFLARE_ACCOUNT_ID environment variable is required".
Proof.
  destruct (generateImage_unconfigured "a cat"
              (answering {| CLOUDFLARE_ACCOUNT_ID := None; CLOUDFLARE_API_TOKEN := None |}
                         imageResponse) freshState) as (msg & E & Hm & _).
  - left. reflexivity.
  - exists msg. split; [exact E | exact Hm].
Defined.

(** C5 as stated fails: [isValidPrompt] accepts a prompt with surrounding
    whitespace, and the envelope then echoes the trimmed prompt, which is
    not the prompt that was submitted. *)
Lemma padded_prompt_is_trimmed :
  isValidPrompt (VStr " a cat ") = true
  /\ fieldOf "success"
       (fst (postGenerate (textRequest "203.0.113.7" " a cat ")
               (answering sampleEnv imageResponse) freshState))
     = VBool true
  /\ fieldOf "prompt"
       (fst (postGenerate (textRequest "203.0.113.7" " a cat ")
               (answering sampleEnv imageResponse) freshState))
     = VStr "a cat"
  /\ fieldOf "prompt"
       (fst (postGenerate (textRequest "203.0.113.7" " a cat ")
               (answering sampleEnv imageResponse) freshState))
     <> VStr " a cat ".
Proof.
  split; [reflexivity|]. split; [reflexivity|]. split; [reflexivity|].
  vm_compute. discriminate.
Qed.

(** C5, amended.  For a string prompt that [isValidPrompt] accepts, with
    both credentials configured and a provider that answers with a success
    status and body bytes B, POST /generate answers 200 with the envelope
    [{success: true, image, prompt, timestamp, processingTimeMs}] where
    [image] is the base64 encoding of B, [prompt] is the trimmed form of the
    submitted prompt (the submitted prompt itself when it has no surrounding
    whitespace), [timestamp] is [toISOString] of the clock when the answer is
    built, of the form YYYY-MM-DDTHH:mm:ss.sssZ for a clock between the years
    0 and 9999, and [processingTimeMs] is the time elapsed since the handler
    started. *)
Theorem postGenerate_success (req : Request) (s : string) (p : Platform)
    (st : State) (response : FetchResponse) :
  Js.get "prompt" (reqBody req) = VStr s ->
  isValidPrompt (VStr s) = true ->
  configured (env p) ->
  (forall rq, upstream p (List.length (sent st)) rq = Resolved response) ->
  ok response = true ->
  exists res st',
    postGenerate req p st = (Ok res, st')
    /\ statusCode res = 200
    /\ payload res = JsonBody (VObj
         [ ("success", VBool true);
           ("image", VStr (Base64.encode (arrayBuffer response)));
           ("prompt", VStr (Str.trim s));
           ("timestamp", VStr (Date.toISOString (clock p (2 + reads st))));
           ("processingTimeMs",
            Js.int (clock p (1 + reads st) - clock p (reads st))) ])
    /\ (Str.trim s = s -> field "prompt" res = VStr s)
    /\ (0 <= clock p (2 + reads st) < 253402300800000 ->
        exists stamp,
          field "timestamp" res = VStr stamp /\ iso8601 stamp = true).
Proof.
  intros Hp Hv Hc Hup Hok.
  unfold postGenerate. rewrite (validatePrompt_valid req s Hp Hv).
  rewrite (postHandler_text _ (Str.trim s) p st) by apply get_set.
  rewrite (generateImage_configured _ p (afterReads 1 st) Hc).
  change (sent (afterReads 1 st)) with (sent st). rewrite Hup, Hok.
  eexists. eexists. split; [reflexivity|]. split; [reflexivity|].
  split; [reflexivity|]. split.
  - intros E. cbn. now rewrite E.
  - intros Hclock. eexists. split; [reflexivity|]. now apply toISOString_shape.
Qed.

Lemma postGenerate_success_witness :
  exists res st',
    postGenerate (textRequest "203.0.113.7" "a cat")
      (answering sampleEnv imageResponse) freshState = (Ok res, st')
    /\ statusCode res = 200
    /\ field "image" res = VStr "iVBORw=="
    /\ field "prompt" res = VStr "a cat".
Proof.
  destruct (postGenerate_success (textRequest "203.0.113.7" "a cat") "a cat"
              (answering sampleEnv imageResponse) freshState imageResponse)
    as (res & st' & E & Hs & Hb & Hq & _).
  - reflexivity.
  - reflexivity.
  - split; reflexivity.
  - intros rq. reflexivity.
  - reflexivity.
  - exists res, st'. split; [exact E|]. split; [exact Hs|]. split.
    + unfold field. rewrite Hb. reflexivity.
    + apply Hq. reflexivity.
Defined.

(** Decoding leaves a text without percent signs as it is. *)
Lemma push_code c t : Uri.push (Str.code c) (Uri.Text t) = Uri.Text (String c t).
Proof.
  unfold Uri.push, Str.code.
  pose proof (N_ascii_bounded c) as Hb.
  replace (Z.of_N (N_of_ascii c) <? 256) with true by (symmetry; apply Z.ltb_lt; lia).
  now rewrite N2Z.id, ascii_N_embedding.
Qed.

Lemma decodeURIComponent_plain s :
  plainText s = true -> Uri.decodeURIComponent s = Uri.Text s.
Proof.
  unfold Uri.decodeURIComponent, plainText.
  induction s as [|c s IH]; [reflexivity|].
  cbn [list_ascii_of_string forallb Uri.decodeFrom].
  intros H. apply andb_prop in H as [Hc Hs]. apply negb_true_iff in Hc.
  rewrite Hc, (IH Hs). apply push_code.
Qed.

Lemma getGenerate_decoded param prompt p st :
  Uri.decodeURIComponent param = Uri.Text prompt ->
  runGet param p st = Some (getHandler prompt p st).
Proof. unfold runGet, getGenerate. now intros ->. Qed.

Lemma getGenerate_malformed param p st :
  Uri.decodeURIComponent param = Uri.Malformed ->
  runGet param p st = Some (Throw (URIError "URI malformed"), st).
Proof. unfold runGet, getGenerate. now intros ->. Qed.

(** The fields that the GET handler sets on its answer. *)
Lemma resSet_image n s t :
  resSet [ ("Content-Type", VStr "image/png");
           ("Content-Length", Js.int n);
           ("X-Generated-Prompt", VStr s);
           ("X-Processing-Time", Js.int t) ]
  = if validHeaderValue s
    then ([ ("Content-Type", VStr "image/png");
            ("Content-Length", Js.int n);
            ("X-Generated-Prompt", VStr s);
            ("X-Processing-Time", Js.int t) ], None)
    else ([ ("Content-Type", VStr "image/png");
            ("Content-Length", Js.int n) ], Some headerError).
Proof.
  cbn [resSet Js.int].
  change (validHeaderValue "image/png") with true. cbv iota.
  destruct (validHeaderValue s); reflexivity.
Qed.

(** The GET handler on a prompt outside the length window. *)
Lemma getHandler_outside prompt p st :
  Str.len (Str.trim prompt) < 3 \/ 2000 < Str.len (Str.trim prompt) ->
  getHandler prompt p st =
    (Ok (respondJson 400 (VObj
       [ ("success", VBool false);
         ("error", VStr "Invalid prompt");
         ("message", VStr "Prompt must be between 3 and 2000 characters long");
         ("example", VStr "GET /generate/a%20beautiful%20sunset") ])),
     afterReads 1 st).
Proof.
  intros H. cbv beta iota zeta delta [getHandler bind dateNow ret].
  match goal with
  | |- context [if ?c then _ else _] => replace c with true
  end; [reflexivity|].
  symmetry. rewrite !orb_true_iff, Z.gtb_ltb, !Z.ltb_lt. tauto.
Qed.

(** One run of the GET handler on a prompt inside the length window:
    whatever the prompt says, [generateImage] runs on its trimmed form. *)
Lemma getHandler_text prompt p st :
  3 <= Str.len (Str.trim prompt) <= 2000 ->
  getHandler prompt p st =
    let '(r, st2) := generateImage (Str.trim prompt) p (afterReads 1 st) in
    let start := clock p (reads st) in
    match r with
    | Ok image =>
        if validHeaderValue (Str.trim prompt) then
          (Ok (imageAnswer (Base64.decode image) (Str.trim prompt)
                 (clock p (reads st2) - start)),
           afterReads 1 st2)
        else
          (Ok (getErrorEnvelope
                 [ ("Content-Type", VStr "image/png");
                   ("Content-Length",
                    Js.int (Z.of_nat (List.length (Base64.decode image)))) ]
                 headerError (Str.trim prompt)
                 (Date.toISOString (clock p (S (S (reads st2)))))
                 (clock p (S (reads st2)) - start)),
           afterReads 3 st2)
    | Throw e =>
        (Ok (getErrorEnvelope [] e (Str.trim prompt)
               (Date.toISOString (clock p (S (reads st2))))
               (clock p (reads st2) - start)),
         afterReads 2 st2)
    end.
Proof.
  intros H.
  assert (Js.truthy (VStr prompt) = true) as Ht.
  { apply truthy_text. intros ->. rewrite trim_empty in H.
    change (Str.len EmptyString) with 0 in H. lia. }
  cbv beta iota zeta delta [getHandler tryCatch bind dateNow isoNow ret throw].
  rewrite Ht.
  decided (Str.len (Str.trim prompt) <? 3) false.
  decided (Str.len (Str.trim prompt) >? 2000) false.
  cbv [negb orb].
  change {| reads := S (reads st); draws := draws st; sent := sent st;
            rateLimitStore := rateLimitStore st |} with (afterReads 1 st).
  destruct (generateImage (Str.trim prompt) p (afterReads 1 st)) as [[image | e] st2].
  - rewrite resSet_image. destruct (validHeaderValue (Str.trim prompt)).
    + reflexivity.
    + unfold getErrorEnvelope. cbv beta iota zeta.
      destruct (classify headerError) as [code msg]. reflexivity.
  - unfold getErrorEnvelope. destruct (classify e) as [code msg]. reflexivity.
Qed.

(** C9.  The claim fails on the code at GET /generate/%25.  Express hands
    the handler the segment "%", whose trimmed length is 1; the handler
    decodes it again before the [try], the escape is malformed, and the
    handler throws a [URIError]: it sends no 400, reads no clock and sends
    nothing upstream. *)
Theorem getGenerate_percent (p : Platform) (st : State) :
  Str.len (Str.trim "%") = 1
  /\ Uri.decodeURIComponent "%" = Uri.Malformed
  /\ runGet "%" p st = Some (Throw (URIError "URI malformed"), st).
Proof.
  split; [reflexivity|]. split; [reflexivity|].
  now apply getGenerate_malformed.
Qed.

(** * POST /generate has no rate-limit stage *)

Lemma classify_not_429 e : fst (classify e) <> 429.
Proof. destruct e; vm_compute; discriminate. Qed.

Lemma postGenerate_step req p st :
  validText req ->
  exists res st',
    postGenerate req p st = (Ok res, st')
    /\ statusCode res <> 429
    /\ rateLimitStore st' = rateLimitStore st
    /\ (configured (env p) -> List.length (sent st') = S (List.length (sent st))).
Proof.
  intros (s & Hp & Hv).
  unfold postGenerate. rewrite (validatePrompt_valid req s Hp Hv).
  rewrite (postHandler_text _ (Str.trim s) p st) by apply get_set.
  pose proof (generateImage_reads (Str.trim s) p (afterReads 1 st)) as [_ Hr].
  destruct (generateImage (Str.trim s) p (afterReads 1 st)) as [r st2] eqn:G.
  simpl in Hr. eexists. eexists. split; [reflexivity|]. split; [|split].
  - destruct r as [image | e]; [discriminate | apply classify_not_429].
  - exact Hr.
  - intros Hc. rewrite (generateImage_configured _ p (afterReads 1 st) Hc) in G.
    injection G as _ <-. cbn. rewrite length_app. simpl. lia.
Qed.

Lemma postAll_cons req rest p st :
  postAll (req :: rest) p st =
    match postGenerate req p st with
    | (Ok res, st1) =>
        match postAll rest p st1 with
        | (Ok more, st2) => (Ok (res :: more), st2)
        | (Throw e, st2) => (Throw e, st2)
        end
    | (Throw e, st1) => (Throw e, st1)
    end.
Proof. reflexivity. Qed.

(** C1, amended.  POST /generate runs [validatePrompt] and then the handler;
    [validateRequestRate] is not part of the route.  For any run of requests
    with valid prompts (eleven from one client within a minute included),
    every request is answered, no answer has status 429 and the rate-limit
    store is left as it was; and with both credentials configured every
    request reaches the upstream call. *)
Theorem postAll_not_limited (reqs : list Request) (p : Platform) (st : State) :
  Forall validText reqs ->
  exists ress st',
    postAll reqs p st = (Ok ress, st')
    /\ List.length ress = List.length reqs
    /\ Forall (fun res => statusCode res <> 429) ress
    /\ rateLimitStore st' = rateLimitStore st
    /\ (configured (env p) ->
        List.length (sent st') = (List.length (sent st) + List.length reqs)%nat).
Proof.
  intros Hv. revert st. induction Hv as [|req rest Hreq _ IH]; intros st.
  - exists [], st. repeat split; auto.
  - destruct (postGenerate_step req p st Hreq) as (res & st1 & E1 & Hs & Hr & Hn).
    destruct (IH st1) as (ress & st' & E & Hl & Hall & Hstore & Hsent).
    exists (res :: ress), st'.
    rewrite postAll_cons, E1, E.
    split; [reflexivity|]. split; [simpl; lia|]. split; [constructor; assumption|].
    split; [congruence|]. intros Hc. rewrite (Hsent Hc), (Hn Hc). simpl. lia.
Qed.

(** C1 as stated fails: of eleven valid requests of one client, handled
    within 60 seconds, the eleventh is answered 200 and reaches the provider
    like the ten before it. *)
Lemma eleventh_request_is_served :
  statuses (fst (postAll elevenRequests (answering sampleEnv imageResponse) freshState))
    = repeat 200 11
  /\ nth_error
       (statuses (fst (postAll elevenRequests (answering sampleEnv imageResponse)
                         freshState))) 10
     <> Some 429
  /\ List.length
       (sent (snd (postAll elevenRequests (answering sampleEnv imageResponse)
                     freshState))) = 11%nat
  /\ clock (answering sampleEnv imageResponse)
       (reads (snd (postAll elevenRequests (answering sampleEnv imageResponse)
                      freshState)))
     - clock (answering sampleEnv imageResponse) 0 < 60000.
Proof.
  split; [vm_compute; reflexivity|]. split; [vm_compute; discriminate|].
  split; vm_compute; reflexivity.
Qed.

Lemma postAll_not_limited_witness :
  exists ress st',
    postAll elevenRequests (answering sampleEnv imageResponse) freshState = (Ok ress, st')
    /\ List.length ress = 11%nat
    /\ Forall (fun res => statusCode res <> 429) ress
    /\ rateLimitStore st' = None
    /\ List.length (sent st') = 11%nat.
Proof.
  destruct (postAll_not_limited elevenRequests (answering sampleEnv imageResponse)
              freshState) as (ress & st' & E & Hl & Hall & Hstore & Hsent).
  - apply List.Forall_forall. intros req Hin. apply repeat_spec in Hin. subst req.
    exists "a cat". split; reflexivity.
  - exists ress, st'. split; [exact E|]. split; [exact Hl|]. split; [exact Hall|].
    split; [exact Hstore|]. apply Hsent. split; reflexivity.
Defined.

(** * The rate limiter *)

Lemma ceilDiv_pos x : 0 < x -> 0 < ceilDiv x 1000.
Proof.
  intros H. unfold ceilDiv.
  assert ((- x) / 1000 < 0) by (apply Z.div_lt_upper_bound; lia). lia.
Qed.

Lemma ceilDiv_spec x : 1000 * (ceilDiv x 1000 - 1) < x <= 1000 * ceilDiv x 1000.
Proof.
  unfold ceilDiv. pose proof (Z.div_mod (- x) 1000 ltac:(lia)).
  pose proof (Z.mod_pos_bound (- x) 1000 ltac:(lia)). lia.
Qed.

Lemma recent_In now l t : In t (recent now l) <-> In t l /\ now - t < 60000.
Proof. unfold recent. rewrite filter_In, Z.ltb_lt. reflexivity. Qed.

Lemma recent_all now l :
  (forall t, In t l -> now - t < 60000) -> recent now l = l.
Proof.
  intros H. induction l as [|a l IH]; [reflexivity|].
  unfold recent in *. simpl.
  replace (now - a <? 60000) with true by (symmetry; apply Z.ltb_lt, H; now left).
  f_equal. apply IH. intros t Ht. apply H. now right.
Qed.

Lemma recent_length now l : (List.length (recent now l) <= List.length l)%nat.
Proof. apply List.filter_length_le. Qed.

Lemma validateRequestRate_allow req now store :
  Z.of_nat (List.length (recent now (stored store (ip req)))) < 10 ->
  validateRequestRate req now store =
    (Some (<[ip req := (recent now (stored store (ip req)) ++ [now])%list]>
             (default ∅ store)),
     Next req).
Proof.
  intros H. unfold validateRequestRate.
  change (List.filter _ _) with (recent now (stored store (ip req))).
  replace (_ >=? maxRequests) with false; [reflexivity|].
  symmetry. rewrite Z.geb_leb. apply Z.leb_gt. exact H.
Qed.

Lemma validateRequestRate_deny req now store :
  10 <= Z.of_nat (List.length (recent now (stored store (ip req)))) ->
  exists res,
    validateRequestRate req now store = (Some (default ∅ store), Respond res)
    /\ statusCode res = 429
    /\ field "error" res = VStr "Rate limit exceeded"
    /\ field "retryAfter" res =
         match recent now (stored store (ip req)) with
         | oldest :: _ => Js.int (ceilDiv (oldest + 60000 - now) 1000)
         | [] => VNull
         end.
Proof.
  intros H. unfold validateRequestRate.
  change (List.filter _ _) with (recent now (stored store (ip req))).
  replace (_ >=? maxRequests) with true.
  - eexists. split; [reflexivity|]. repeat split.
  - symmetry. rewrite Z.geb_leb. apply Z.leb_le. exact H.
Qed.

Lemma stored_insert (m : gmap string (list Z)) key l k :
  stored (Some (<[key := l]> m)) k = if decide (key = k) then l else stored (Some m) k.
Proof.
  unfold stored. simpl. rewrite lookup_insert. now destruct (decide (key = k)).
Qed.

Lemma stored_default store k : stored (Some (default ∅ store)) k = stored store k.
Proof. destruct store; reflexivity. Qed.

(** Calls whose timestamps all stay within one window of each other
    are admitted one after the other until ten are stored. *)
Lemma rateLimitRun_within req times : forall store,
  (List.length (stored store (ip req)) + List.length times <= 10)%nat ->
  (forall a t, In a (stored store (ip req) ++ times)%list -> In t times -> t - a < 60000) ->
  snd (rateLimitRun (callsAt req times) store) = repeat (Next req) (List.length times)
  /\ stored (fst (rateLimitRun (callsAt req times) store)) (ip req)
     = (stored store (ip req) ++ times)%list.
Proof.
  induction times as [|t times IH]; intros store Hlen Hwin.
  - simpl. now rewrite app_nil_r.
  - simpl in Hlen.
    assert (recent t (stored store (ip req)) = stored store (ip req)) as Hrec.
    { apply recent_all. intros a Ha. apply Hwin; [apply in_or_app; now left | now left]. }
    assert (validateRequestRate req t store =
            (Some (<[ip req := (stored store (ip req) ++ [t])%list]> (default ∅ store)),
             Next req)) as E.
    { rewrite <- Hrec at 1. apply validateRequestRate_allow. rewrite Hrec. lia. }
    cbn [callsAt List.map rateLimitRun]. fold (callsAt req times). rewrite E.
    specialize (IH (Some (<[ip req := (stored store (ip req) ++ [t])%list]>
                            (default ∅ store)))).
    rewrite stored_insert in IH. destruct (decide (ip req = ip req)); [|congruence].
    destruct IH as [IH1 IH2].
    + rewrite length_app. simpl. lia.
    + intros a u Ha Hu. apply Hwin; [|now right].
      rewrite <- app_assoc in Ha. exact Ha.
    + destruct (rateLimitRun (callsAt req times) _) as [final outcomes].
      simpl in *. rewrite IH1, IH2, <- app_assoc. split; reflexivity.
Qed.

Lemma validateRequestRate_init req now store :
  exists m, fst (validateRequestRate req now store) = Some m.
Proof.
  unfold validateRequestRate. destruct (_ >=? maxRequests); eexists; reflexivity.
Qed.

Lemma rateLimitRun_cons req now calls store :
  rateLimitRun ((req, now) :: calls) store =
    (fst (rateLimitRun calls (fst (validateRequestRate req now store))),
     snd (validateRequestRate req now store)
       :: snd (rateLimitRun calls (fst (validateRequestRate req now store)))).
Proof.
  cbn [rateLimitRun]. destruct (validateRequestRate req now store) as [store' outcome].
  cbn [fst snd]. destruct (rateLimitRun calls store') as [final outcomes]. reflexivity.
Qed.

Lemma rateLimitRun_init calls : forall store,
  (exists m, store = Some m) -> exists m, fst (rateLimitRun calls store) = Some m.
Proof.
  induction calls as [|[req now] calls IH]; intros store H; [exact H|].
  rewrite rateLimitRun_cons. cbn [fst]. apply IH, validateRequestRate_init.
Qed.

Lemma rateLimitRun_started calls store :
  calls <> [] -> exists m, fst (rateLimitRun calls store) = Some m.
Proof.
  destruct calls as [|[req now] calls]; [congruence|]. intros _.
  rewrite rateLimitRun_cons. cbn [fst]. apply rateLimitRun_init, validateRequestRate_init.
Qed.

(** C2.  [validateRequestRate] reads the timestamps stored for the client
    (none if unseen) and keeps those less than one window old
    ([now - t < 60000]; an entry exactly 60 seconds old has expired).  With
    ten or more of them it answers 429, leaves the map as it was and reports
    [retryAfter = ceil((oldest + 60000 - now) / 1000)], which is positive.
    Otherwise it appends [now] to the kept entries, stores them under the
    client and calls [next()].  In particular, after ten calls admitted for
    a client within one window an eleventh call in that window is denied,
    and a call made once the window has elapsed since the oldest entry is
    admitted. *)
Theorem validateRequestRate_admit (req : Request) (store : option (gmap string (list Z))) :
  (forall now,
     let valid := recent now (stored store (ip req)) in
     (10 <= Z.of_nat (List.length valid) ->
      exists res oldest rest,
        valid = oldest :: rest
        /\ validateRequestRate req now store = (Some (default ∅ store), Respond res)
        /\ statusCode res = 429
        /\ field "retryAfter" res = Js.int (ceilDiv (oldest + 60000 - now) 1000)
        /\ 0 < ceilDiv (oldest + 60000 - now) 1000)
     /\ (Z.of_nat (List.length valid) < 10 ->
         validateRequestRate req now store =
           (Some (<[ip req := (valid ++ [now])%list]> (default ∅ store)), Next req)))
  /\ (forall times eleventh,
        stored store (ip req) = [] ->
        List.length times = 10%nat ->
        (forall t, In t times -> t <= eleventh /\ eleventh - t < 60000) ->
        let store10 := fst (rateLimitRun (callsAt req times) store) in
        snd (rateLimitRun (callsAt req times) store) = repeat (Next req) 10
        /\ stored store10 (ip req) = times
        /\ (exists res n,
              validateRequestRate req eleventh store10 = (store10, Respond res)
              /\ statusCode res = 429
              /\ field "retryAfter" res = Js.int n
              /\ 0 < n)
        /\ (forall late,
              60000 <= late - hd 0 times ->
              snd (validateRequestRate req late store10) = Next req)).
Proof.
  split.
  - intros now valid. split.
    + intros H. destruct (validateRequestRate_deny req now store H) as (res & E & Hs & _ & Hr).
      fold valid in Hr. destruct valid as [|oldest rest] eqn:Hv; [simpl in H; lia|].
      exists res, oldest, rest. repeat split; try assumption.
      apply ceilDiv_pos.
      assert (In oldest (recent now (stored store (ip req)))) as Hin
        by (fold valid; rewrite Hv; now left).
      apply recent_In in Hin. lia.
    + apply validateRequestRate_allow.
  - intros times eleventh Hnew Hlen Hwin store10.
    destruct (rateLimitRun_within req times store) as [Hout Hst].
    { rewrite Hnew, Hlen. simpl. lia. }
    { rewrite Hnew. simpl. intros a t Ha Ht.
      destruct (Hwin a Ha), (Hwin t Ht). lia. }
    rewrite Hnew in Hst. simpl in Hst. fold store10 in Hst.
    rewrite Hlen in Hout. split; [exact Hout|]. split; [exact Hst|].
    destruct (rateLimitRun_started (callsAt req times) store) as (m & Hm).
    { destruct times; [discriminate | discriminate]. }
    fold store10 in Hm. split.
    + assert (recent eleventh (stored store10 (ip req)) = times) as Hrec.
      { rewrite Hst. apply recent_all. intros t Ht. now apply Hwin. }
      destruct (validateRequestRate_deny req eleventh store10) as (res & E & Hs & _ & Hr).
      { rewrite Hrec, Hlen. lia. }
      rewrite Hrec in Hr. destruct times as [|oldest rest]; [discriminate|].
      exists res, (ceilDiv (oldest + 60000 - eleventh) 1000).
      split; [rewrite E, Hm; reflexivity|]. split; [exact Hs|]. split; [exact Hr|].
      apply ceilDiv_pos. destruct (Hwin oldest (or_introl eq_refl)). lia.
    + intros late Hlate.
      rewrite validateRequestRate_allow; [reflexivity|].
      rewrite Hst. destruct times as [|oldest rest]; [discriminate|].
      simpl in Hlate. unfold recent. simpl.
      decided (late - oldest <? 60000) false.
      pose proof (recent_length late rest) as Hle. unfold recent in Hle.
      simpl in Hlen. lia.
Qed.

Lemma validateRequestRate_admit_witness :
  let req := textRequest "203.0.113.7" "a cat" in
  let times := [0; 1000; 2000; 3000; 4000; 5000; 6000; 7000; 8000; 9000] in
  let store10 := fst (rateLimitRun (callsAt req times) None) in
  (exists res n,
     validateRequestRate req 10000 store10 = (store10, Respond res)
     /\ statusCode res = 429
     /\ field "retryAfter" res = Js.int n
     /\ 0 < n)
  /\ snd (validateRequestRate req 60000 store10) = Next req.
Proof.
  intros req times store10.
  destruct (validateRequestRate_admit req None) as [_ H].
  destruct (H times 10000) as (_ & _ & Hdeny & Hlate).
  - reflexivity.
  - reflexivity.
  - intros t Ht. simpl in Ht.
    repeat (destruct Ht as [<- | Ht]; [lia|]). contradiction.
  - split; [exact Hdeny|]. apply Hlate. simpl. lia.
Defined.

(** * The invariant of the rate-limit store *)

Lemma StronglySorted_recent now l :
  StronglySorted Z.le l -> StronglySorted Z.le (recent now l).
Proof.
  induction 1 as [|a l Hl IH Ha]; [constructor|].
  unfold recent in *. simpl. destruct (now - a <? 60000); [|exact IH].
  constructor; [exact IH|].
  apply List.Forall_forall. intros t Ht. apply filter_In in Ht as [Ht _].
  rewrite List.Forall_forall in Ha. now apply Ha.
Qed.

Lemma ordered_fresh bound : ordered None bound.
Proof. intros key. split; constructor. Qed.

Lemma ordered_later store bound bound' :
  ordered store bound -> bound <= bound' -> ordered store bound'.
Proof.
  intros H Hle key. destruct (H key) as [Hs Hb]. split; [exact Hs|].
  eapply List.Forall_impl; [|exact Hb]. simpl. intros. lia.
Qed.

Lemma admitted_ordered now l :
  StronglySorted Z.le l -> Forall (fun t => t <= now) l ->
  StronglySorted Z.le (recent now l ++ [now])
  /\ Forall (fun t => t <= now) (recent now l ++ [now]).
Proof.
  intros Hs Hb. rewrite List.Forall_forall in Hb. split.
  - apply StronglySorted_app_2.
    + intros x y Hx Hy. apply list_elem_of_In, recent_In in Hx as [Hx _].
      apply list_elem_of_In in Hy. destruct Hy as [<- | []]. now apply Hb.
    + now apply StronglySorted_recent.
    + repeat constructor.
  - apply List.Forall_forall. intros t Ht. apply in_app_or in Ht as [Ht | [<- | []]].
    + apply recent_In in Ht as [Ht _]. now apply Hb.
    + lia.
Qed.

Lemma validateRequestRate_ordered req now store :
  ordered store now -> ordered (fst (validateRequestRate req now store)) now.
Proof.
  intros H.
  destruct (Z_lt_dec (Z.of_nat (List.length (recent now (stored store (ip req))))) 10)
    as [Hlt | Hge].
  - rewrite (validateRequestRate_allow req now store Hlt). cbn [fst]. intros key.
    rewrite stored_insert, stored_default. destruct (decide (ip req = key)); [|apply H].
    destruct (H (ip req)). now apply admitted_ordered.
  - destruct (validateRequestRate_deny req now store ltac:(lia)) as (res & -> & _).
    cbn [fst]. intros key. rewrite stored_default. apply H.
Qed.

Lemma rateLimitRun_ordered calls : forall store now,
  ordered store (hd now (List.map snd calls)) ->
  StronglySorted Z.le (List.map snd calls ++ [now]) ->
  ordered (fst (rateLimitRun calls store)) now.
Proof.
  induction calls as [|[req t] calls IH]; intros store now Hinv Hs; [exact Hinv|].
  rewrite rateLimitRun_cons. cbn [fst]. simpl in Hinv, Hs.
  apply StronglySorted_inv in Hs as [Hs Ht]. apply IH; [|exact Hs].
  eapply ordered_later; [apply validateRequestRate_ordered, Hinv|].
  rewrite List.Forall_forall in Ht. apply Ht.
  destruct calls as [|[r u] calls]; simpl; auto.
Qed.

(** C10 as stated fails: the clock of [Date.now()] may be set back.  A call
    at 50000 after a call at 100000 is admitted, and the list stored for
    the client is then neither in order nor within the window that ends at
    the time of the call. *)
Lemma backward_clock_breaks_order :
  let req := textRequest "203.0.113.7" "a cat" in
  let store := fst (rateLimitRun [(req, 100000)] None) in
  snd (validateRequestRate req 50000 store) = Next req
  /\ stored (fst (validateRequestRate req 50000 store)) (ip req) = [100000; 50000]
  /\ ~ StronglySorted Z.le [100000; 50000]
  /\ ~ (forall t, In t [100000; 50000] -> 50000 - 60000 < t <= 50000).
Proof.
  split; [vm_compute; reflexivity|]. split; [vm_compute; reflexivity|]. split.
  - intros H. apply StronglySorted_inv in H as [_ H].
    apply Forall_inv in H. lia.
  - intros H. specialize (H 100000 (or_introl eq_refl)). lia.
Qed.

(** C10, amended.  Starting from a process without a store: when
    [validateRequestRate] admits a request at time [now], the list stored
    for that client has at most ten entries, all of them later than
    [now - 60000]; if moreover the clock never ran backwards over the calls
    so far, the list is in non-decreasing order and holds no timestamp
    later than [now].  When it denies a request, the store is exactly what
    it was. *)
Theorem rateLimitStore_invariant (calls : list (Request * Z)) (req : Request) (now : Z) :
  let store := fst (rateLimitRun calls None) in
  (forall req',
     snd (validateRequestRate req now store) = Next req' ->
     let l := stored (fst (validateRequestRate req now store)) (ip req) in
     (List.length l <= 10)%nat
     /\ (forall t, In t l -> now - 60000 < t)
     /\ (StronglySorted Z.le (List.map snd calls ++ [now]) ->
         StronglySorted Z.le l /\ forall t, In t l -> t <= now))
  /\ (forall res,
        snd (validateRequestRate req now store) = Respond res ->
        fst (validateRequestRate req now store) = store).
Proof.
  intros store.
  destruct (Z_lt_dec (Z.of_nat (List.length (recent now (stored store (ip req))))) 10)
    as [Hlt | Hge].
  - rewrite (validateRequestRate_allow req now store Hlt). cbn [fst snd].
    split; [|discriminate]. intros _ _.
    rewrite stored_insert. destruct (decide (ip req = ip req)); [|congruence].
    split; [rewrite length_app; simpl; lia|]. split.
    + intros t Ht. apply in_app_or in Ht as [Ht | [<- | []]]; [|lia].
      apply recent_In in Ht. lia.
    + intros Hs.
      assert (ordered store now) as Hinv
        by (apply rateLimitRun_ordered; [apply ordered_fresh | exact Hs]).
      destruct (Hinv (ip req)) as [Hsorted Hbound].
      destruct (admitted_ordered now _ Hsorted Hbound) as [Hs' Hb'].
      split; [exact Hs'|]. intros t Ht. rewrite List.Forall_forall in Hb'.
      now apply Hb'.
  - destruct (validateRequestRate_deny req now store ltac:(lia)) as (res & -> & _).
    cbn [fst snd]. split; [discriminate|]. intros _ _.
    destruct store as [m|]; [reflexivity|]. exfalso. apply Hge.
    unfold stored. simpl. rewrite lookup_empty. simpl. lia.
Qed.

Lemma rateLimitStore_invariant_witness :
  let req := textRequest "203.0.113.7" "a cat" in
  let store := fst (rateLimitRun (callsAt req [0; 10; 20]) None) in
  let l := stored (fst (validateRequestRate req 60010 store)) (ip req) in
  (List.length l <= 10)%nat
  /\ StronglySorted Z.le l
  /\ forall t, In t l -> 60010 - 60000 < t <= 60010.
Proof.
  intros req store.
  destruct (rateLimitStore_invariant (callsAt req [0; 10; 20]) req 60010) as [H _].
  destruct (H req) as (Hl & Hlow & Hup); [vm_compute; reflexivity|].
  destruct Hup as [Hsorted Hhigh]; [simpl; repeat constructor; lia|].
  split; [exact Hl|]. split; [exact Hsorted|].
  intros t Ht. split; [now apply Hlow | now apply Hhigh].
Defined.

(** * More on the prompt validator *)

Lemma get_set_other k k' v fields :
  k <> k' -> Js.get k (Js.set k' v fields) = Js.get k fields.
Proof.
  intros Hne. induction fields as [|[k0 v0] rest IH]; simpl.
  - apply String.eqb_neq in Hne. now rewrite Hne.
  - destruct (String.eqb k' k0) eqn:E; simpl.
    + apply String.eqb_eq in E. subst k0.
      apply String.eqb_neq in Hne. now rewrite Hne.
    + destruct (String.eqb k k0); [reflexivity | exact IH].
Qed.

Lemma set_set k v v' fields : Js.set k v (Js.set k v' fields) = Js.set k v fields.
Proof.
  induction fields as [|[k0 v0] rest IH]; simpl.
  - now rewrite String.eqb_refl.
  - destruct (String.eqb k k0) eqn:E; simpl; rewrite E; [reflexivity | now rewrite IH].
Qed.

(** A value that [isValidPrompt] accepts is a string. *)
Lemma isValidPrompt_string v : isValidPrompt v = true -> exists s, v = VStr s.
Proof.
  destruct v; try (unfold isValidPrompt; simpl; discriminate).
  - unfold isValidPrompt. simpl. now destruct b.
  - unfold isValidPrompt. simpl. now destruct (Qeq_bool q 0).
  - eauto.
Qed.

(** The outcome of [validatePrompt] on any prompt value. *)
Lemma validatePrompt_cases req :
  let v := Js.get "prompt" (reqBody req) in
  if negb (Js.truthy v) then rejects MissingField (validatePrompt req)
  else if negb (String.eqb (Js.typeof v) "string") then
    rejects WrongType (validatePrompt req)
    /\ (exists res, validatePrompt req = Respond res
                    /\ field "received" res = VStr (Js.typeof v))
  else exists s, v = VStr s.
Proof.
  intros v. unfold validatePrompt. fold v.
  destruct (negb (Js.truthy v)) eqn:Ht.
  - eexists. split; [reflexivity|]. repeat split.
  - destruct (negb (String.eqb (Js.typeof v) "string")) eqn:Hs.
    + split; eexists; (split; [reflexivity|]); repeat split.
    + destruct v; simpl in Hs; try discriminate. eauto.
Qed.

(** Only a valid string prompt is handed on. *)
Lemma validatePrompt_next req req' :
  validatePrompt req = Next req' ->
  exists s, Js.get "prompt" (reqBody req) = VStr s
            /\ isValidPrompt (VStr s) = true.
Proof.
  intros H. pose proof (validatePrompt_cases req) as Hc. cbv zeta in Hc.
  destruct (negb (Js.truthy (Js.get "prompt" (reqBody req)))).
  { destruct Hc as (res & E & _). congruence. }
  destruct (negb (String.eqb (Js.typeof (Js.get "prompt" (reqBody req))) "string")).
  { destruct Hc as [(res & E & _) _]. congruence. }
  destruct Hc as (s & Hp). exists s. split; [exact Hp|].
  rewrite (validatePrompt_text req s Hp) in H.
  destruct (String.eqb s ""); [discriminate H|].
  destruct (isValidPrompt (VStr s)); [reflexivity | discriminate H].
Qed.

(** X1.  [validatePrompt] hands a request on exactly when [isValidPrompt]
    accepts its prompt.  The request handed on keeps the client address and
    every other field of the body, and its prompt is the trimmed string;
    every other request is answered 400 with [success: false]. *)
Theorem validatePrompt_forwards_valid (req : Request) :
  match validatePrompt req with
  | Next req' =>
      isValidPrompt (Js.get "prompt" (reqBody req)) = true
      /\ ip req' = ip req
      /\ (exists s, Js.get "prompt" (reqBody req) = VStr s
                    /\ Js.get "prompt" (reqBody req') = VStr (Str.trim s))
      /\ forall k, k <> "prompt" ->
                   Js.get k (reqBody req') = Js.get k (reqBody req)
  | Respond res =>
      isValidPrompt (Js.get "prompt" (reqBody req)) = false
      /\ statusCode res = 400
      /\ field "success" res = VBool false
  end.
Proof.
  unfold validatePrompt.
  destruct (Js.get "prompt" (reqBody req)) as [| |b|q|s|items|fields] eqn:Hv;
    try (split; [reflexivity | split; reflexivity]).
  - destruct b; split; try reflexivity; split; reflexivity.
  - unfold isValidPrompt. simpl. destruct (Qeq_bool q 0); simpl;
      (split; [reflexivity | split; reflexivity]).
  - change (Js.truthy (VStr s)) with (negb (String.eqb s "")).
    rewrite negb_involutive.
    destruct (String.eqb s "") eqn:Hs.
    { split; [|split; reflexivity]. unfold isValidPrompt. simpl. now rewrite Hs. }
    change (Js.typeof (VStr s)) with "string".
    change (String.eqb "string" "string") with true. cbv [negb].
    destruct (isValidPrompt (VStr s)) eqn:Hvalid.
    + split; [reflexivity|]. split; [reflexivity|]. split.
      * exists s. split; [reflexivity|]. apply get_set.
      * intros k Hk. now apply get_set_other.
    + split; [reflexivity|]. split; reflexivity.
Qed.

(** X2.  A request whose prompt is missing or falsy ([undefined], [null],
    [false], [0], the empty string) is answered 400 "Missing required field:
    prompt"; a truthy prompt that is not a string is answered 400 "Invalid
    prompt type" together with the [typeof] of what was received. *)
Theorem validatePrompt_unusable (req : Request) :
  (Js.truthy (Js.get "prompt" (reqBody req)) = false ->
   rejects MissingField (validatePrompt req))
  /\ (Js.truthy (Js.get "prompt" (reqBody req)) = true ->
      Js.typeof (Js.get "prompt" (reqBody req)) <> "string" ->
      rejects WrongType (validatePrompt req)
      /\ exists res,
           validatePrompt req = Respond res
           /\ field "received" res
              = VStr (Js.typeof (Js.get "prompt" (reqBody req)))).
Proof.
  pose proof (validatePrompt_cases req) as H. cbv zeta in H. split.
  - intros Ht. now rewrite Ht in H.
  - intros Ht Hs. rewrite Ht in H. apply String.eqb_neq in Hs.
    now rewrite Hs in H.
Qed.

Lemma validatePrompt_unusable_witness :
  rejects MissingField (validatePrompt {| ip := "203.0.113.7"; reqBody := [] |})
  /\ exists res,
       validatePrompt {| ip := "203.0.113.7";
                         reqBody := [("prompt", VNum (42 # 1))] |} = Respond res
       /\ field "received" res = VStr "number".
Proof.
  split.
  - apply (validatePrompt_unusable {| ip := "203.0.113.7"; reqBody := [] |}).
    reflexivity.
  - apply (validatePrompt_unusable
             {| ip := "203.0.113.7"; reqBody := [("prompt", VNum (42 # 1))] |}).
    + reflexivity.
    + discriminate.
Defined.

(** [isValidPrompt] does not see surrounding whitespace. *)
Lemma isValidPrompt_trimmed s :
  isValidPrompt (VStr (Str.trim s)) = isValidPrompt (VStr s).
Proof.
  apply eq_true_iff_eq. rewrite !isValidPrompt_text, trim_idem. reflexivity.
Qed.

(** X3.  [validatePrompt] normalises once: a request that it handed on is
    handed on unchanged when it runs again. *)
Theorem validatePrompt_twice (req req' : Request) :
  validatePrompt req = Next req' -> validatePrompt req' = Next req'.
Proof.
  intros H. destruct (validatePrompt_next req req' H) as (s & Hp & Hv).
  rewrite (validatePrompt_valid req s Hp Hv) in H. injection H as <-.
  rewrite (validatePrompt_valid _ (Str.trim s)).
  - cbn [ip reqBody]. now rewrite trim_idem, set_set.
  - cbn [reqBody]. apply get_set.
  - now rewrite isValidPrompt_trimmed.
Qed.

Lemma validatePrompt_twice_witness :
  validatePrompt {| ip := "203.0.113.7";
                    reqBody := [("prompt", VStr "a cat"); ("size", VNum (1 # 1))] |}
  = Next {| ip := "203.0.113.7";
            reqBody := [("prompt", VStr "a cat"); ("size", VNum (1 # 1))] |}.
Proof.
  apply (validatePrompt_twice
           {| ip := "203.0.113.7";
              reqBody := [("prompt", VStr "  a cat  "); ("size", VNum (1 # 1))] |}).
  reflexivity.
Defined.

(** X4.  The verdict of [isValidPrompt] on a string is the verdict on its
    trimmed form, and nothing but a string is ever valid. *)
Theorem isValidPrompt_normal (v : Value) :
  (isValidPrompt v = true -> exists s, v = VStr s)
  /\ forall s, v = VStr s ->
               isValidPrompt (VStr (Str.trim s)) = isValidPrompt v.
Proof.
  split; [apply isValidPrompt_string|]. intros s ->. apply isValidPrompt_trimmed.
Qed.

(** * The Content-Type check *)

Lemma startsWith_spec t s :
  Str.startsWith t s = true <-> exists post, s = String.append t post.
Proof.
  revert s. induction t as [|a t IH]; intros s.
  - split; [intros _; now exists s | reflexivity].
  - destruct s as [|c s]; simpl.
    + split; [discriminate | intros (post & E); discriminate].
    + rewrite andb_true_iff, IH, Ascii.eqb_eq. split.
      * intros (-> & post & ->). now exists post.
      * intros (post & E). injection E as -> ->. eauto.
Qed.

(** [s.includes(t)] finds [t] as it is written. *)
Lemma includes_spec t s :
  Str.includes t s = true <->
  exists pre post, s = String.append pre (String.append t post).
Proof.
  induction s as [|c s IH].
  - simpl. rewrite orb_false_r, startsWith_spec. split.
    + intros (post & E). now exists EmptyString, post.
    + intros ([|x pre] & post & E); simpl in E; [eauto | discriminate].
  - rewrite includes_cons, orb_true_iff, startsWith_spec, IH. split.
    + intros [(post & E) | (pre & post & ->)].
      * now exists EmptyString, post.
      * now exists (String c pre), post.
    + intros ([|x pre] & post & E); simpl in E.
      * left. eauto.
      * right. injection E as _ ->. eauto.
Qed.

(** X5.  [validateContentType] hands a request on, unchanged, exactly when
    the Content-Type header is present and contains "application/json" as
    written (parameters around it are allowed, other letter cases are not);
    otherwise it answers 400 and reports the header it received, or "none"
    for a missing or empty one. *)
Theorem validateContentType_json (contentType : option string) (req : Request) :
  (validateContentType contentType req = Next req <->
   exists pre post,
     contentType
     = Some (String.append pre (String.append "application/json" post)))
  /\ (forall res,
        validateContentType contentType req = Respond res ->
        statusCode res = 400
        /\ field "received" res
           = VStr (match contentType with
                   | Some (String c s) => String c s
                   | _ => "none"
                   end)).
Proof.
  unfold validateContentType. destruct contentType as [[|c s]|].
  - change (unset (Some "")) with true. cbn [orb]. split.
    + split; [intros E; discriminate E|].
      intros ([|x pre] & post & E); simpl in E; discriminate E.
    + intros res E. injection E as <-. split; reflexivity.
  - change (unset (Some (String c s))) with false.
    change (default "" (Some (String c s))) with (String c s). cbn [orb].
    destruct (Str.includes "application/json" (String c s)) eqn:Hi; cbn [negb].
    + split; [|intros res E; discriminate E]. split; [intros _ | reflexivity].
      apply includes_spec in Hi as (pre & post & ->). eauto.
    + split.
      * split; [intros E; discriminate E|]. intros (pre & post & E).
        injection E as E.
        assert (Str.includes "application/json" (String c s) = true) as Ht
          by (apply includes_spec; exists pre, post; exact E).
        congruence.
      * intros res E. injection E as <-. split; reflexivity.
  - change (unset None) with true. cbn [orb]. split.
    + split; [intros E; discriminate E|]. intros (pre & post & E). discriminate E.
    + intros res E. injection E as <-. split; reflexivity.
Qed.

(** * More on the rate limiter *)

(** The two outcomes of [validateRequestRate]. *)
Lemma validateRequestRate_outcome req now store :
  (Z.of_nat (List.length (recent now (stored store (ip req)))) < 10
   /\ validateRequestRate req now store =
        (Some (<[ip req := (recent now (stored store (ip req)) ++ [now])%list]>
                 (default ∅ store)), Next req))
  \/ (10 <= Z.of_nat (List.length (recent now (stored store (ip req))))
      /\ exists res,
           validateRequestRate req now store = (Some (default ∅ store), Respond res)
           /\ statusCode res = 429
           /\ field "retryAfter" res =
                match recent now (stored store (ip req)) with
                | oldest :: _ => Js.int (ceilDiv (oldest + 60000 - now) 1000)
                | [] => VNull
                end).
Proof.
  destruct (Z_lt_dec (Z.of_nat (List.length (recent now (stored store (ip req))))) 10)
    as [Hlt | Hge].
  - left. split; [exact Hlt|]. now apply validateRequestRate_allow.
  - right. split; [lia|].
    destruct (validateRequestRate_deny req now store ltac:(lia)) as (res & E & Hs & _ & Hr).
    eauto.
Qed.

(** X6.  A call of one client changes nothing for any other client, and no
    client is ever removed from the store: entries of a client stay until
    that client calls again. *)
Theorem validateRequestRate_isolated (req : Request) (now : Z)
    (store : option (gmap string (list Z))) (key : string) :
  let store' := fst (validateRequestRate req now store) in
  (exists m, store' = Some m)
  /\ (key <> ip req -> default ∅ store' !! key = default ∅ store !! key)
  /\ (is_Some (default ∅ store !! key) -> is_Some (default ∅ store' !! key)).
Proof.
  cbv zeta.
  destruct (validateRequestRate_outcome req now store)
    as [[_ ->] | [_ (res & -> & _)]]; cbn [fst].
  - split; [eauto|]. split.
    + intros Hne. cbn [default from_option id]. now rewrite lookup_insert_ne.
    + intros Hsome. cbn [default from_option id].
      destruct (decide (ip req = key)) as [<- | Hne].
      * rewrite lookup_insert_eq. eauto.
      * now rewrite lookup_insert_ne.
  - split; [eauto|]. split; intros; destruct store; auto.
Qed.

Lemma validateRequestRate_capacity req now store :
  withinCapacity store -> withinCapacity (fst (validateRequestRate req now store)).
Proof.
  intros H key.
  destruct (validateRequestRate_outcome req now store)
    as [[Hlt ->] | [_ (res & -> & _)]]; cbn [fst].
  - rewrite stored_insert, stored_default.
    destruct (decide (ip req = key)); [|apply H].
    rewrite length_app. simpl. lia.
  - rewrite stored_default. apply H.
Qed.

Lemma rateLimitRun_capacity calls : forall store,
  withinCapacity store -> withinCapacity (fst (rateLimitRun calls store)).
Proof.
  induction calls as [|[req t] calls IH]; intros store H; [exact H|].
  rewrite rateLimitRun_cons. cbn [fst]. apply IH.
  now apply validateRequestRate_capacity.
Qed.

Lemma fresh_capacity : withinCapacity None.
Proof. intros key. unfold stored. simpl. rewrite lookup_empty. simpl. lia. Qed.

Lemma rateLimitStore_capacity_all calls key :
  (List.length (stored (fst (rateLimitRun calls None)) key) <= 10)%nat.
Proof. apply rateLimitRun_capacity, fresh_capacity. Qed.

(** X7.  Whatever calls were made, at whatever times, the store never holds
    more than ten timestamps for a client. *)
Theorem rateLimitStore_capacity (calls : list (Request * Z)) (key : string) :
  (List.length (stored (fst (rateLimitRun calls None)) key) <= 10)%nat.
Proof. apply rateLimitStore_capacity_all. Qed.

Lemma int_injective a b : Js.int a = Js.int b -> a = b.
Proof. unfold Js.int, inject_Z. intros E. now injection E. Qed.

Lemma retryAfterOf_int res n :
  field "retryAfter" res = Js.int n -> retryAfterOf (Respond res) = Some n.
Proof. unfold retryAfterOf. intros ->. reflexivity. Qed.

Lemma ceilDiv_le x : x <= 60000 -> ceilDiv x 1000 <= 60.
Proof. intros H. pose proof (ceilDiv_spec x). lia. Qed.

(** X8.  With a clock that never runs backwards, every denial carries a
    [retryAfter] between 1 and 60 seconds. *)
Theorem retryAfter_range (calls : list (Request * Z)) (req : Request) (now : Z) :
  StronglySorted Z.le (List.map snd calls ++ [now]) ->
  forall res,
    snd (validateRequestRate req now (fst (rateLimitRun calls None))) = Respond res ->
    exists seconds,
      field "retryAfter" res = Js.int seconds /\ 1 <= seconds <= 60.
Proof.
  intros Hs res Hres.
  set (store := fst (rateLimitRun calls None)) in *.
  assert (ordered store now) as Hinv
    by (apply rateLimitRun_ordered; [apply ordered_fresh | exact Hs]).
  destruct (validateRequestRate_outcome req now store)
    as [[_ E] | [Hge (res' & E & _ & Hr)]]; rewrite E in Hres; [discriminate Hres|].
  injection Hres as ->.
  destruct (recent now (stored store (ip req))) as [|oldest rest] eqn:Hv;
    [simpl in Hge; lia|].
  assert (In oldest (recent now (stored store (ip req)))) as Hin
    by (rewrite Hv; now left).
  apply recent_In in Hin as [Hin Hw].
  destruct (Hinv (ip req)) as [_ Hb]. rewrite List.Forall_forall in Hb.
  specialize (Hb oldest Hin). cbv beta in Hb.
  exists (ceilDiv (oldest + 60000 - now) 1000). split; [exact Hr|].
  pose proof (ceilDiv_pos (oldest + 60000 - now) ltac:(lia)).
  pose proof (ceilDiv_le (oldest + 60000 - now) ltac:(lia)). lia.
Qed.

Lemma filter_all {A} (f : A -> bool) l :
  List.length (List.filter f l) = List.length l -> List.filter f l = l.
Proof.
  induction l as [|a l IH]; [reflexivity|]. simpl.
  destruct (f a); simpl; intros H.
  - f_equal. apply IH. lia.
  - pose proof (List.filter_length_le f l). lia.
Qed.

(** X9.  [retryAfter] is enough: when a call is denied, a call of the same
    client made [retryAfter] seconds later or more, with no call of that
    client in between, is admitted.  This holds for any clock. *)
Theorem retryAfter_suffices (calls : list (Request * Z)) (req : Request)
    (now later seconds : Z) :
  retryAfterOf (snd (validateRequestRate req now (fst (rateLimitRun calls None))))
    = Some seconds ->
  now + 1000 * seconds <= later ->
  snd (validateRequestRate req later
         (fst (validateRequestRate req now (fst (rateLimitRun calls None)))))
    = Next req.
Proof.
  intros Hr Hlater.
  set (store := fst (rateLimitRun calls None)) in *.
  pose proof (rateLimitStore_capacity_all calls (ip req)) as Hcap. fold store in Hcap.
  destruct (validateRequestRate_outcome req now store)
    as [[_ E] | [Hge (res & E & _ & Hf)]]; rewrite E in Hr |- *; [discriminate Hr|].
  cbn [fst snd] in *.
  pose proof (recent_length now (stored store (ip req))) as Hle.
  assert (recent now (stored store (ip req)) = stored store (ip req)) as Hall
    by (apply filter_all; fold (recent now (stored store (ip req))); lia).
  rewrite Hall in Hf.
  destruct (stored store (ip req)) as [|oldest rest] eqn:Hst;
    [rewrite Hall in Hge; simpl in Hge; lia|].
  rewrite (retryAfterOf_int _ _ Hf) in Hr. injection Hr as <-.
  pose proof (ceilDiv_spec (oldest + 60000 - now)).
  rewrite validateRequestRate_allow; [reflexivity|].
  rewrite stored_default, Hst. unfold recent. simpl.
  decided (later - oldest <? 60000) false.
  pose proof (List.filter_length_le (fun t => later - t <? 60000) rest).
  simpl in Hcap. lia.
Qed.

Lemma retryAfter_range_witness :
  let req := textRequest "203.0.113.7" "a cat" in
  let calls := callsAt req [0; 1; 2; 3; 4; 5; 6; 7; 8; 9] in
  exists res seconds,
    snd (validateRequestRate req 10 (fst (rateLimitRun calls None))) = Respond res
    /\ field "retryAfter" res = Js.int seconds /\ 1 <= seconds <= 60.
Proof.
  intros req calls.
  pose proof (retryAfter_range calls req 10) as H.
  destruct (snd (validateRequestRate req 10 (fst (rateLimitRun calls None))))
    as [res | req'] eqn:E; [|vm_compute in E; discriminate E].
  destruct (H ltac:(simpl; repeat constructor; lia) res eq_refl) as (seconds & Hf & Hr).
  exists res, seconds. auto.
Defined.

Lemma retryAfter_suffices_witness :
  let req := textRequest "203.0.113.7" "a cat" in
  let store := fst (rateLimitRun (callsAt req [0; 1; 2; 3; 4; 5; 6; 7; 8; 9]) None) in
  snd (validateRequestRate req 60010 (fst (validateRequestRate req 10 store)))
    = Next req.
Proof.
  intros req store.
  apply (retryAfter_suffices _ req 10 60010 60); [vm_compute; reflexivity | lia].
Defined.

Lemma recent_recent t now l : t <= now -> recent now (recent t l) = recent now l.
Proof.
  intros H. unfold recent. induction l as [|a l IH]; [reflexivity|]. simpl.
  destruct (t - a <? 60000) eqn:E; simpl; rewrite IH; [reflexivity|].
  apply Z.ltb_ge in E. now decided (now - a <? 60000) false.
Qed.

Lemma recent_app now l l' :
  recent now (l ++ l') = (recent now l ++ recent now l')%list.
Proof. apply List.filter_app. Qed.

Lemma tracks_later store adm bound bound' :
  tracks store adm bound -> bound <= bound' -> tracks store adm bound'.
Proof. intros H Hle key now Hnow. apply H. lia. Qed.

Lemma validateRequestRate_tracks req t store adm :
  tracks store adm t ->
  tracks (fst (validateRequestRate req t store))
    (fun key => (adm key
       ++ admittedAt key [(req, t)] [snd (validateRequestRate req t store)])%list) t.
Proof.
  intros H key now Hnow.
  destruct (validateRequestRate_outcome req t store)
    as [[_ ->] | [_ (res & -> & _)]]; cbn [fst snd admittedAt].
  - rewrite stored_insert, stored_default.
    destruct (decide (ip req = key)) as [<- | Hne].
    + rewrite String.eqb_refl, !recent_app, recent_recent by exact Hnow.
      now rewrite H.
    + replace (String.eqb (ip req) key) with false
        by (symmetry; now apply String.eqb_neq).
      rewrite app_nil_r. now apply H.
  - rewrite stored_default, app_nil_r. now apply H.
Qed.

Lemma admittedAt_cons key req t calls outcome outcomes :
  admittedAt key ((req, t) :: calls) (outcome :: outcomes) =
    (admittedAt key [(req, t)] [outcome] ++ admittedAt key calls outcomes)%list.
Proof.
  cbn [admittedAt]. destruct outcome; [reflexivity|].
  destruct (String.eqb (ip req) key); reflexivity.
Qed.

Lemma rateLimitRun_tracks calls : forall store adm now,
  tracks store adm (hd now (List.map snd calls)) ->
  StronglySorted Z.le (List.map snd calls ++ [now]) ->
  tracks (fst (rateLimitRun calls store))
    (fun key => (adm key
       ++ admittedAt key calls (snd (rateLimitRun calls store)))%list) now.
Proof.
  induction calls as [|[req t] calls IH]; intros store adm now Hinv Hs.
  - intros key now' Hnow. cbn [rateLimitRun fst snd admittedAt].
    rewrite app_nil_r. now apply Hinv.
  - rewrite rateLimitRun_cons. cbn [fst snd]. simpl in Hinv, Hs.
    apply StronglySorted_inv in Hs as [Hs Hall].
    pose proof (validateRequestRate_tracks req t store adm Hinv) as Hstep.
    assert (t <= hd now (List.map snd calls)) as Hle.
    { rewrite List.Forall_forall in Hall. apply Hall.
      destruct calls as [|[r u] calls]; simpl; auto. }
    specialize (IH _ _ now (tracks_later _ _ _ _ Hstep Hle) Hs).
    intros key now' Hnow. rewrite (IH key now' Hnow).
    now rewrite (admittedAt_cons key req t calls), List.app_assoc.
Qed.

Lemma fresh_tracks bound : tracks None (fun _ => []) bound.
Proof.
  intros key now _. unfold stored. simpl. rewrite lookup_empty. reflexivity.
Qed.

(** X10.  The limiter is an exact sliding window.  With a clock that never
    runs backwards, at most ten calls of a client let through so far lie within
    the 60 seconds before [now], and a call at [now] is let through exactly when
    fewer than ten do. *)
Theorem validateRequestRate_window (calls : list (Request * Z)) (req : Request)
    (now : Z) :
  StronglySorted Z.le (List.map snd calls ++ [now]) ->
  let store := fst (rateLimitRun calls None) in
  let earlier := admittedAt (ip req) calls (snd (rateLimitRun calls None)) in
  (List.length (recent now earlier) <= 10)%nat
  /\ (snd (validateRequestRate req now store) = Next req
      <-> (List.length (recent now earlier) < 10)%nat).
Proof.
  intros Hs store earlier.
  pose proof (rateLimitRun_tracks calls None (fun _ => []) now
                (fresh_tracks _) Hs (ip req) now (Z.le_refl _)) as Ht.
  cbn beta in Ht. rewrite app_nil_l in Ht. fold store earlier in Ht.
  rewrite <- Ht. split.
  - etransitivity; [apply recent_length|].
    apply rateLimitStore_capacity_all.
  - destruct (validateRequestRate_outcome req now store)
      as [[Hlt ->] | [Hge (res & -> & _)]]; cbn [snd].
    + split; [lia | reflexivity].
    + split; [discriminate | lia].
Qed.

Lemma validateRequestRate_window_witness :
  let req := textRequest "203.0.113.7" "a cat" in
  let calls := callsAt req [0; 1; 2; 3; 4; 5; 6; 7; 8; 9; 10; 60000] in
  let earlier := admittedAt (ip req) calls (snd (rateLimitRun calls None)) in
  (List.length (recent 60005 earlier) <= 10)%nat
  /\ (snd (validateRequestRate req 60005 (fst (rateLimitRun calls None))) = Next req
      <-> (List.length (recent 60005 earlier) < 10)%nat).
Proof.
  intros req calls earlier.
  apply (validateRequestRate_window calls req 60005).
  simpl. repeat constructor; lia.
Defined.

(** * More on the upstream client *)

Lemma configured_dec e :
  {configured e} + {unset (CLOUDFLARE_ACCOUNT_ID e) || unset (CLOUDFLARE_API_TOKEN e) = true}.
Proof.
  unfold configured.
  destruct (unset (CLOUDFLARE_ACCOUNT_ID e)); [right; reflexivity|].
  destruct (unset (CLOUDFLARE_API_TOKEN e)); [right; reflexivity|].
  left. split; reflexivity.
Qed.

Lemma not_configured e :
  unset (CLOUDFLARE_ACCOUNT_ID e) || unset (CLOUDFLARE_API_TOKEN e) = true <->
  ~ configured e.
Proof.
  unfold configured.
  destruct (unset (CLOUDFLARE_ACCOUNT_ID e)), (unset (CLOUDFLARE_API_TOKEN e));
    simpl; intuition congruence.
Qed.

(** [generateImage] without both credentials. *)
Lemma generateImage_missing prompt p st :
  ~ configured (env p) ->
  exists msg, generateImage prompt p st = (Throw (AuthenticationError msg), st).
Proof.
  intros H. destruct (generateImage_unset prompt p st) as [Hc | E]; [tauto|].
  eexists. exact E.
Qed.

(** X11.  When the provider cannot be reached ([fetch] rejects),
    [generateImage] throws a plain [Error] whose message is "Image
    generation failed: " followed by the reason; the one request was sent. *)
Theorem generateImage_network_failure (prompt : string) (p : Platform)
    (st : State) (reason : string) :
  configured (env p) ->
  (forall rq, upstream p (List.length (sent st)) rq = Rejected reason) ->
  fst (generateImage prompt p st)
    = Throw (Error (String.append "Image generation failed: " reason))
  /\ sent (snd (generateImage prompt p st))
     = (sent st ++ [requestFor (env p) prompt (random p (draws st))])%list.
Proof.
  intros Hc Hup. rewrite (generateImage_configured prompt p st Hc).
  cbv zeta. rewrite Hup. split; reflexivity.
Qed.

Lemma generateImage_network_failure_witness :
  fst (generateImage "a cat" (unreachable sampleEnv "ECONNREFUSED") freshState)
    = Throw (Error "Image generation failed: ECONNREFUSED")
  /\ sent (snd (generateImage "a cat" (unreachable sampleEnv "ECONNREFUSED")
                  freshState))
     = [requestFor sampleEnv "a cat" 0].
Proof.
  apply (generateImage_network_failure "a cat"
           (unreachable sampleEnv "ECONNREFUSED") freshState "ECONNREFUSED").
  - split; reflexivity.
  - intros rq. reflexivity.
Defined.

(** X12.  What [generateImage] can do.  It returns an image only with both
    credentials configured and a success answer, and the image is the
    base64 text of the answer's bytes.  It throws nothing but an
    [AuthenticationError] (exactly when a credential is missing, and then
    nothing was sent), a [CloudflareAPIError] or a plain [Error].  It sends
    at most one request. *)
Theorem generateImage_outcomes (prompt : string) (p : Platform) (st : State) :
  let rq := requestFor (env p) prompt (random p (draws st)) in
  match generateImage prompt p st with
  | (Ok image, st') =>
      configured (env p)
      /\ (exists r, upstream p (List.length (sent st)) rq = Resolved r
                    /\ ok r = true
                    /\ image = Base64.encode (arrayBuffer r))
      /\ sent st' = (sent st ++ [rq])%list
  | (Throw e, st') =>
      In (name e) ["AuthenticationError"; "CloudflareAPIError"; "Error"]
      /\ (name e = "AuthenticationError" <-> ~ configured (env p))
      /\ (name e = "AuthenticationError" -> st' = st)
      /\ (sent st' = sent st \/ sent st' = (sent st ++ [rq])%list)
  end.
Proof.
  intros rq. destruct (configured_dec (env p)) as [Hc | Hn].
  - rewrite (generateImage_configured prompt p st Hc). cbv zeta. fold rq.
    destruct (upstream p (List.length (sent st)) rq) as [reason | r] eqn:Hup.
    + split; [simpl; auto|]. split; [split; [discriminate | tauto]|].
      split; [discriminate | now right].
    + destruct (ok r) eqn:Hok.
      * split; [exact Hc|]. split; [eauto | reflexivity].
      * split; [simpl; auto|]. split; [split; [discriminate | tauto]|].
        split; [discriminate | now right].
  - apply not_configured in Hn.
    destruct (generateImage_missing prompt p st Hn) as (msg & ->).
    split; [simpl; auto|]. split; [tauto|]. split; [reflexivity | now left].
Qed.

(** X13.  [generateImage] trims the prompt itself: trimming it beforehand,
    as both handlers do, changes nothing. *)
Theorem generateImage_trimmed (prompt : string) (p : Platform) (st : State) :
  generateImage (Str.trim prompt) p st = generateImage prompt p st.
Proof.
  destruct (configured_dec (env p)) as [Hc | Hn].
  - rewrite !(generateImage_configured _ p st Hc). cbv zeta.
    unfold requestFor. now rewrite trim_idem.
  - apply not_configured in Hn.
    destruct (generateImage_unset prompt p st) as [Hc | ->]; [tauto|].
    destruct (generateImage_unset (Str.trim prompt) p st) as [Hc | ->]; [tauto|].
    reflexivity.
Qed.

(** X14.  The request that [generateImage] sends with credentials
    [account] and [token]: a POST to the model's run endpoint of that
    account, with the token as bearer authorisation and a JSON body of the
    trimmed prompt, 20 steps, guidance 7.5 and the seed just drawn. *)
Theorem generateImage_request (prompt account token : string) (p : Platform)
    (st : State) :
  CLOUDFLARE_ACCOUNT_ID (env p) = Some account ->
  CLOUDFLARE_API_TOKEN (env p) = Some token ->
  account <> "" -> token <> "" ->
  exists rq,
    sent (snd (generateImage prompt p st)) = (sent st ++ [rq])%list
    /\ draws (snd (generateImage prompt p st)) = S (draws st)
    /\ url rq = String.append "https://api.cloudflare.com/client/v4/accounts/"
                  (String.append account
                     "/ai/run/@cf/stabilityai/stable-diffusion-xl-base-1.0")
    /\ method rq = "POST"
    /\ headers rq = [ ("Authorization", String.append "Bearer " token);
                      ("Content-Type", "application/json");
                      ("User-Agent", "NodeJS-Image-Generator/1.0") ]
    /\ body rq = VObj [ ("prompt", VStr (Str.trim prompt));
                        ("num_steps", VNum (20 # 1));
                        ("guidance_scale", VNum (15 # 2));
                        ("seed", Js.int (random p (draws st))) ].
Proof.
  intros Hid Htok Hi Ht.
  assert (configured (env p)) as Hc.
  { unfold configured. rewrite Hid, Htok. simpl.
    split; now apply String.eqb_neq. }
  rewrite (generateImage_configured prompt p st Hc). cbv zeta.
  eexists. split; [reflexivity|]. split; [reflexivity|].
  unfold requestFor. rewrite Hid, Htok. cbn [url method headers body default from_option id].
  split; [|repeat split].
  unfold buildEndpointUrl, CLOUDFLARE_BASE_URL, STABLE_DIFFUSION_MODEL.
  cbn [String.concat]. simpl. reflexivity.
Qed.

Lemma generateImage_request_witness :
  exists rq,
    sent (snd (generateImage "  a cat " (answering sampleEnv imageResponse)
                 freshState)) = [rq]
    /\ url rq = "https://api.cloudflare.com/client/v4/accounts/acct/ai/run/@cf/stabilityai/stable-diffusion-xl-base-1.0"
    /\ Js.get "prompt" (match body rq with VObj fields => fields | _ => [] end)
       = VStr "a cat".
Proof.
  destruct (generateImage_request "  a cat " "acct" "token"
              (answering sampleEnv imageResponse) freshState)
    as (rq & Hs & _ & Hu & _ & _ & Hb); try reflexivity; try discriminate.
  exists rq. split; [exact Hs|]. split; [exact Hu|]. rewrite Hb. reflexivity.
Defined.

(** * More on the handlers *)

(** Every answer of [validatePrompt] itself is a 400. *)
Lemma validatePrompt_respond req res :
  validatePrompt req = Respond res ->
  statusCode res = 400 /\ field "success" res = VBool false.
Proof.
  unfold validatePrompt.
  destruct (Js.get "prompt" (reqBody req)) as [| |b|q|s|items|fields] eqn:Hv;
    try (intros E; injection E as <-; split; reflexivity).
  - destruct b; intros E; injection E as <-; split; reflexivity.
  - simpl. destruct (Qeq_bool q 0); simpl; intros E; injection E as <-;
      split; reflexivity.
  - change (Js.truthy (VStr s)) with (negb (String.eqb s "")).
    rewrite negb_involutive.
    destruct (String.eqb s "").
    { intros E; injection E as <-; split; reflexivity. }
    change (Js.typeof (VStr s)) with "string".
    change (String.eqb "string" "string") with true. cbv [negb].
    destruct (isValidPrompt (VStr s)); [discriminate|].
    intros E; injection E as <-; split; reflexivity.
Qed.

(** The status and public text for each kind of error. *)
Lemma classify_cases e :
  classify e =
    match e with
    | CloudflareAPIError _ _ =>
        (502, "Failed to communicate with Cloudflare AI service")
    | AuthenticationError _ => (401, "Invalid Cloudflare API credentials")
    | TypeError _ | URIError _ | Error _ =>
        (500, "Failed to generate image due to an internal error")
    end.
Proof. destruct e; reflexivity. Qed.

(** What [generateImage] leaves of the state. *)
Lemma generateImage_state prompt p st :
  let rq := requestFor (env p) prompt (random p (draws st)) in
  reads (snd (generateImage prompt p st)) = reads st
  /\ rateLimitStore (snd (generateImage prompt p st)) = rateLimitStore st
  /\ (sent (snd (generateImage prompt p st)) = sent st
      \/ sent (snd (generateImage prompt p st)) = (sent st ++ [rq])%list).
Proof.
  intros rq. destruct (generateImage_unset prompt p st) as [H | ->].
  - rewrite (generateImage_configured prompt p st H). cbv zeta. fold rq.
    split; [reflexivity|]. split; [reflexivity|]. now right.
  - split; [reflexivity|]. split; [reflexivity|]. now left.
Qed.

(** X15.  POST /generate always answers and never throws.  The status is
    one of 200, 400, 401, 500 and 502, the body says [success: true] exactly
    at 200, at most one request goes to the provider, and the rate-limit
    store is left alone. *)
Theorem postGenerate_total (req : Request) (p : Platform) (st : State) :
  exists res st',
    postGenerate req p st = (Ok res, st')
    /\ In (statusCode res) [200; 400; 401; 500; 502]
    /\ field "success" res = VBool (statusCode res =? 200)
    /\ (exists l, sent st' = (sent st ++ l)%list /\ (List.length l <= 1)%nat)
    /\ rateLimitStore st' = rateLimitStore st.
Proof.
  unfold postGenerate. destruct (validatePrompt req) as [res | req'] eqn:E.
  - apply validatePrompt_respond in E as [Hs Hf].
    exists res, st. split; [reflexivity|]. rewrite Hs, Hf.
    split; [simpl; tauto|]. split; [reflexivity|].
    split; [|reflexivity]. exists []. rewrite app_nil_r. auto.
  - destruct (validatePrompt_next req req' E) as (s & Hp & Hv).
    rewrite (validatePrompt_valid req s Hp Hv) in E. injection E as <-.
    rewrite (postHandler_text _ (Str.trim s) p st) by apply get_set.
    pose proof (generateImage_state (Str.trim s) p (afterReads 1 st)) as (_ & Hr & Hsent).
    destruct (generateImage (Str.trim s) p (afterReads 1 st)) as [r st2].
    cbn [snd] in Hr, Hsent. change (sent (afterReads 1 st)) with (sent st) in Hsent.
    eexists. eexists. split; [reflexivity|].
    split; [|split; [|split]].
    + destruct r as [image | e]; [simpl; tauto|].
      unfold errorEnvelope. rewrite classify_cases. destruct e; simpl; tauto.
    + destruct r as [image | e]; [reflexivity|].
      unfold errorEnvelope. rewrite classify_cases. destruct e; reflexivity.
    + cbn [sent afterReads].
      destruct Hsent as [-> | ->]; [exists []; rewrite app_nil_r | eexists]; eauto.
    + exact Hr.
Qed.

(** X16.  The status of POST /generate for a valid prompt.  Without both
    credentials it is 401 and nothing is sent.  Otherwise one request is
    sent: a success answer gives 200 with the base64 text of the bytes, any
    other answer gives 502, and a provider that cannot be reached gives 500.
    The [error] texts are fixed; what the provider said is not passed on. *)
Theorem postGenerate_status (req : Request) (p : Platform) (st : State) :
  validText req ->
  exists res st',
    postGenerate req p st = (Ok res, st')
    /\ if unset (CLOUDFLARE_ACCOUNT_ID (env p))
          || unset (CLOUDFLARE_API_TOKEN (env p))
       then statusCode res = 401
            /\ field "error" res = VStr "Invalid Cloudflare API credentials"
            /\ sent st' = sent st
       else exists rq,
         sent st' = (sent st ++ [rq])%list
         /\ match upstream p (List.length (sent st)) rq with
            | Resolved r =>
                if ok r
                then statusCode res = 200
                     /\ field "image" res = VStr (Base64.encode (arrayBuffer r))
                else statusCode res = 502
                     /\ field "error" res
                        = VStr "Failed to communicate with Cloudflare AI service"
            | Rejected _ =>
                statusCode res = 500
                /\ field "error" res
                   = VStr "Failed to generate image due to an internal error"
            end.
Proof.
  intros (s & Hp & Hv).
  unfold postGenerate. rewrite (validatePrompt_valid req s Hp Hv).
  rewrite (postHandler_text _ (Str.trim s) p st) by apply get_set.
  destruct (configured_dec (env p)) as [Hc | Hn].
  - rewrite (generateImage_configured _ p (afterReads 1 st) Hc). cbv zeta.
    change (sent (afterReads 1 st)) with (sent st).
    destruct Hc as [Ha Ht]. rewrite Ha, Ht. cbn [orb].
    set (rq := requestFor (env p) (Str.trim s) (random p (draws (afterReads 1 st)))).
    eexists. eexists. split; [reflexivity|]. exists rq. split; [reflexivity|].
    destruct (upstream p (List.length (sent st)) rq) as [reason | r].
    + split; reflexivity.
    + destruct (ok r); split; reflexivity.
  - rewrite Hn. apply not_configured in Hn.
    destruct (generateImage_missing (Str.trim s) p (afterReads 1 st) Hn) as (msg & ->).
    eexists. eexists. split; [reflexivity|]. repeat split.
Qed.

Lemma postGenerate_status_witness :
  exists res st',
    postGenerate (textRequest "203.0.113.7" "a cat")
      (unreachable sampleEnv "ECONNREFUSED") freshState = (Ok res, st')
    /\ statusCode res = 500
    /\ field "error" res = VStr "Failed to generate image due to an internal error".
Proof.
  destruct (postGenerate_status (textRequest "203.0.113.7" "a cat")
              (unreachable sampleEnv "ECONNREFUSED") freshState)
    as (res & st' & E & H).
  - exists "a cat". split; reflexivity.
  - cbn in H. destruct H as (rq & _ & Hs & He).
    exists res, st'. auto.
Defined.

(** X17.  The answers of GET /generate/:prompt when the handler decodes
    the route parameter to a prompt inside the length window that can be
    sent as a header.  Without both credentials it is 401 and nothing is
    sent.  Otherwise a success answer gives 200 with the very bytes
    received, typed image/png, with their count as Content-Length and the
    trimmed prompt as X-Generated-Prompt; any other answer gives 502 and an
    unreachable provider 500, in a JSON body marked [method: GET]. *)
Theorem getGenerate_status (param prompt : string) (p : Platform) (st : State) :
  Uri.decodeURIComponent param = Uri.Text prompt ->
  3 <= Str.len (Str.trim prompt) <= 2000 ->
  validHeaderValue (Str.trim prompt) = true ->
  exists res st',
    runGet param p st = Some (Ok res, st')
    /\ if unset (CLOUDFLARE_ACCOUNT_ID (env p))
          || unset (CLOUDFLARE_API_TOKEN (env p))
       then statusCode res = 401 /\ field "method" res = VStr "GET"
            /\ sent st' = sent st
       else exists rq,
         sent st' = (sent st ++ [rq])%list
         /\ match upstream p (List.length (sent st)) rq with
            | Resolved r =>
                if ok r
                then res = imageAnswer (arrayBuffer r) (Str.trim prompt)
                             (clock p (S (reads st)) - clock p (reads st))
                else statusCode res = 502 /\ field "method" res = VStr "GET"
                     /\ field "prompt" res = VStr (Str.trim prompt)
            | Rejected _ =>
                statusCode res = 500 /\ field "method" res = VStr "GET"
                /\ field "prompt" res = VStr (Str.trim prompt)
            end.
Proof.
  intros Hd Hlen Hh.
  rewrite (getGenerate_decoded param prompt p st Hd),
    (getHandler_text prompt p st Hlen).
  destruct (configured_dec (env p)) as [Hc | Hn].
  - rewrite (generateImage_configured _ p (afterReads 1 st) Hc). cbv zeta.
    change (sent (afterReads 1 st)) with (sent st).
    destruct Hc as [Ha Ht]. rewrite Ha, Ht. cbn [orb].
    set (rq := requestFor (env p) (Str.trim prompt)
                 (random p (draws (afterReads 1 st)))).
    destruct (upstream p (List.length (sent st)) rq) as [reason | r] eqn:Hup.
    + eexists. eexists. split; [reflexivity|]. exists rq. rewrite Hup.
      split; [reflexivity|]. repeat split.
    + destruct (ok r) eqn:Hok.
      * rewrite Hh, decode_encode. eexists. eexists. split; [reflexivity|].
        exists rq. rewrite Hup, Hok. split; reflexivity.
      * eexists. eexists. split; [reflexivity|]. exists rq. rewrite Hup, Hok.
        split; [reflexivity|]. repeat split.
  - rewrite Hn. apply not_configured in Hn.
    destruct (generateImage_missing (Str.trim prompt) p (afterReads 1 st) Hn)
      as (msg & ->).
    eexists. eexists. split; [reflexivity|]. repeat split.
Qed.

Lemma getGenerate_status_witness :
  exists st',
    runGet " caf%C3%A9 " (answering sampleEnv imageResponse) freshState
    = Some (Ok (imageAnswer png (String.append "caf" (String (ascii_of_nat 233) ""))
                  5), st').
Proof.
  destruct (getGenerate_status " caf%C3%A9 "
              (String.append " caf" (String (ascii_of_nat 233) " "))
              (answering sampleEnv imageResponse) freshState)
    as (res & st' & E & H).
  - reflexivity.
  - vm_compute. split; discriminate.
  - reflexivity.
  - cbn in H. destruct H as (rq & _ & ->). exists st'. exact E.
Defined.

(** X18.  What GET /generate/:prompt can do.  It throws only when the
    second decoding of the route parameter fails: the [URIError] leaves the
    handler before it reads the clock, sends anything or answers.  When the
    parameter decodes, the handler answers: the status is one of 200, 400,
    401, 500 and 502, the answer carries image bytes exactly at 200 and a
    JSON body with [success: false] otherwise, at most one request goes to
    the provider, and the rate-limit store is left alone. *)
Theorem getGenerate_outcomes (param : string) (p : Platform) (st : State) :
  match Uri.decodeURIComponent param with
  | Uri.Malformed =>
      runGet param p st = Some (Throw (URIError "URI malformed"), st)
  | Uri.Wide => runGet param p st = None
  | Uri.Text prompt =>
      exists res st',
        runGet param p st = Some (Ok res, st')
        /\ In (statusCode res) [200; 400; 401; 500; 502]
        /\ (if statusCode res =? 200
            then exists bytes, payload res = Buffer bytes
            else field "success" res = VBool false)
        /\ (exists l, sent st' = (sent st ++ l)%list /\ (List.length l <= 1)%nat)
        /\ rateLimitStore st' = rateLimitStore st
  end.
Proof.
  destruct (Uri.decodeURIComponent param) as [|prompt|] eqn:Hd.
  { now apply getGenerate_malformed. }
  2: { unfold runGet, getGenerate. now rewrite Hd. }
  rewrite (getGenerate_decoded param prompt p st Hd).
  destruct (Z_lt_dec (Str.len (Str.trim prompt)) 3) as [Hs | Hs];
    [|destruct (Z_lt_dec 2000 (Str.len (Str.trim prompt))) as [Hl | Hl]].
  1, 2: rewrite (getHandler_outside prompt p st) by lia;
    eexists; eexists; (split; [reflexivity|]);
    (split; [simpl; tauto|]); (split; [reflexivity|]);
    (split; [|reflexivity]); exists []; rewrite app_nil_r; auto.
  rewrite (getHandler_text prompt p st) by lia.
  pose proof (generateImage_state (Str.trim prompt) p (afterReads 1 st))
    as (_ & Hr & Hsent).
  destruct (generateImage (Str.trim prompt) p (afterReads 1 st)) as [r st2].
  cbn [snd] in Hr, Hsent. change (sent (afterReads 1 st)) with (sent st) in Hsent.
  assert (forall n, exists l, sent (afterReads n st2) = (sent st ++ l)%list
                              /\ (List.length l <= 1)%nat) as Hl'.
  { intros n. cbn [sent afterReads].
    destruct Hsent as [-> | ->]; [exists []; rewrite app_nil_r | eexists]; eauto. }
  destruct r as [image | e]; [destruct (validHeaderValue (Str.trim prompt))|].
  - eexists. eexists. split; [reflexivity|]. split; [simpl; tauto|].
    split; [eexists; reflexivity|]. split; [apply Hl' | exact Hr].
  - eexists. eexists. split; [reflexivity|]. split; [simpl; tauto|].
    split; [reflexivity|]. split; [apply Hl' | exact Hr].
  - eexists. eexists. split; [reflexivity|].
    unfold getErrorEnvelope. rewrite classify_cases. cbn [statusCode fst].
    split; [destruct e; simpl; tauto|].
    split; [destruct e; reflexivity|]. split; [apply Hl' | exact Hr].
Qed.

(** X19.  GET and POST agree where GET decodes.  For a route parameter
    that the handler decodes to a prompt which [isValidPrompt] accepts and
    which can be sent as a header, both routes send the same request and
    answer with the same status; at 200 the bytes of the GET answer are the
    decoded [image] text of the POST answer, and otherwise the [error]
    texts are the same. *)
Theorem get_post_agree (client param s : string) (p : Platform) (st : State) :
  Uri.decodeURIComponent param = Uri.Text s ->
  isValidPrompt (VStr s) = true ->
  validHeaderValue (Str.trim s) = true ->
  exists post get st1 st2,
    postGenerate (textRequest client s) p st = (Ok post, st1)
    /\ runGet param p st = Some (Ok get, st2)
    /\ sent st1 = sent st2
    /\ statusCode post = statusCode get
    /\ if statusCode post =? 200
       then exists image, field "image" post = VStr image
                          /\ payload get = Buffer (Base64.decode image)
       else field "error" post = field "error" get.
Proof.
  intros Hd Hv Hh. pose proof Hv as Hlen.
  apply isValidPrompt_text in Hlen as [Hlen _].
  unfold postGenerate.
  rewrite (validatePrompt_valid (textRequest client s) s eq_refl Hv).
  rewrite (postHandler_text _ (Str.trim s) p st) by apply get_set.
  rewrite (getGenerate_decoded param s p st Hd).
  rewrite (getHandler_text s p st Hlen), Hh.
  destruct (generateImage (Str.trim s) p (afterReads 1 st)) as [[image | e] st2].
  - eexists. eexists. eexists. eexists. split; [reflexivity|].
    split; [reflexivity|]. split; [reflexivity|]. split; [reflexivity|].
    exists image. split; reflexivity.
  - eexists. eexists. eexists. eexists. split; [reflexivity|].
    split; [reflexivity|]. split; [reflexivity|]. split; [reflexivity|].
    unfold errorEnvelope, getErrorEnvelope. rewrite classify_cases.
    destruct e; reflexivity.
Qed.

Lemma get_post_agree_witness :
  exists post get st1 st2,
    postGenerate (textRequest "203.0.113.7" " a cat ")
      (answering sampleEnv imageResponse) freshState = (Ok post, st1)
    /\ runGet "%20a%20cat " (answering sampleEnv imageResponse) freshState
       = Some (Ok get, st2)
    /\ sent st1 = sent st2
    /\ statusCode post = statusCode get.
Proof.
  destruct (get_post_agree "203.0.113.7" "%20a%20cat " " a cat "
              (answering sampleEnv imageResponse) freshState)
    as (post & get & st1 & st2 & E1 & E2 & Hs & Hc & _).
  - reflexivity.
  - reflexivity.
  - reflexivity.
  - exists post, get, st1, st2. auto.
Defined.

(** X24.  The one test of GET /generate/:prompt on a parameter that it
    decodes is the length of the trimmed prompt.  Outside 3..2000
    characters the answer is 400 and nothing is sent upstream; inside,
    every prompt, a prohibited term included, goes to [generateImage],
    which with both credentials configured sends one request carrying the
    trimmed prompt. *)
Theorem getGenerate_length_check (param prompt : string) (p : Platform)
    (st : State) :
  Uri.decodeURIComponent param = Uri.Text prompt ->
  exists r st',
    runGet param p st = Some (r, st')
    /\ (Str.len (Str.trim prompt) < 3 \/ 2000 < Str.len (Str.trim prompt) ->
        exists res, r = Ok res /\ statusCode res = 400 /\ sent st' = sent st)
    /\ (3 <= Str.len (Str.trim prompt) <= 2000 ->
        configured (env p) ->
        exists rq,
          sent st' = (sent st ++ [rq])%list
          /\ Js.get "prompt"
               (match body rq with VObj fields => fields | _ => [] end)
             = VStr (Str.trim prompt)).
Proof.
  intros Hd. rewrite (getGenerate_decoded param prompt p st Hd).
  destruct (getHandler prompt p st) as [r st'] eqn:E.
  exists r, st'. split; [reflexivity|]. split.
  - intros H. rewrite (getHandler_outside prompt p st H) in E.
    injection E as <- <-. eexists. split; [reflexivity|]. split; reflexivity.
  - intros H Hc. rewrite (getHandler_text prompt p st H) in E.
    rewrite (generateImage_configured _ p (afterReads 1 st) Hc) in E.
    cbv zeta in E.
    exists (requestFor (env p) (Str.trim prompt)
              (random p (draws (afterReads 1 st)))).
    split; [|cbn; now rewrite trim_idem].
    match type of E with
    | context [upstream p ?n ?q] => destruct (upstream p n q) as [reason | resp]
    end; [|destruct (ok resp); [destruct (validHeaderValue (Str.trim prompt))|]];
      injection E as _ <-; reflexivity.
Qed.

Lemma getGenerate_length_check_witness :
  (exists res st',
     runGet "ab" (answering sampleEnv imageResponse) freshState
     = Some (Ok res, st')
     /\ statusCode res = 400
     /\ sent st' = [])
  /\ (exists rq,
        option_map (fun r => sent (snd r))
          (runGet "gore" (answering sampleEnv imageResponse) freshState)
        = Some [rq]
        /\ Js.get "prompt" (match body rq with VObj fields => fields | _ => [] end)
           = VStr "gore").
Proof.
  split.
  - destruct (getGenerate_length_check "ab" "ab"
                (answering sampleEnv imageResponse) freshState eq_refl)
      as (r & st' & E & Hout & _).
    destruct Hout as (res & -> & Hs & Hn); [left; vm_compute; reflexivity|].
    exists res, st'. auto.
  - destruct (getGenerate_length_check "gore" "gore"
                (answering sampleEnv imageResponse) freshState eq_refl)
      as (r & st' & E & _ & Hin).
    destruct Hin as (rq & Hs & Hb);
      [vm_compute; split; discriminate | split; reflexivity|].
    exists rq. rewrite E. cbn [option_map snd]. rewrite Hs. split; [reflexivity | exact Hb].
Defined.

(** X25.  A prompt that cannot be a header value costs a provider call.
    When the handler decodes the route parameter to a prompt inside the
    length window that holds a control character, and the provider returns
    an image, the handler fails while setting X-Generated-Prompt: the image
    is dropped and the answer is 500 with the generic error text, on a
    response that still has the Content-Type image/png set before the
    failure and no X-Generated-Prompt. *)
Theorem getGenerate_header_failure (param prompt : string) (p : Platform)
    (st : State) (response : FetchResponse) :
  Uri.decodeURIComponent param = Uri.Text prompt ->
  3 <= Str.len (Str.trim prompt) <= 2000 ->
  validHeaderValue (Str.trim prompt) = false ->
  configured (env p) ->
  (forall rq, upstream p (List.length (sent st)) rq = Resolved response) ->
  ok response = true ->
  exists res st',
    runGet param p st = Some (Ok res, st')
    /\ statusCode res = 500
    /\ field "error" res
       = VStr "Failed to generate image due to an internal error"
    /\ Js.get "Content-Type" (resHeaders res) = VStr "image/png"
    /\ Js.get "X-Generated-Prompt" (resHeaders res) = VUndefined
    /\ List.length (sent st') = S (List.length (sent st)).
Proof.
  intros Hd Hlen Hh Hc Hup Hok.
  rewrite (getGenerate_decoded param prompt p st Hd),
    (getHandler_text prompt p st Hlen),
    (generateImage_configured _ p (afterReads 1 st) Hc).
  cbv zeta. change (sent (afterReads 1 st)) with (sent st).
  rewrite Hup, Hok, Hh.
  eexists. eexists. split; [reflexivity|]. split; [reflexivity|].
  split; [reflexivity|]. split; [reflexivity|]. split; [reflexivity|].
  cbn. rewrite length_app. simpl. lia.
Qed.

Lemma getGenerate_header_failure_witness :
  exists res st',
    runGet "a%0Acat" (answering sampleEnv imageResponse) freshState
    = Some (Ok res, st')
    /\ statusCode res = 500
    /\ Js.get "Content-Type" (resHeaders res) = VStr "image/png"
    /\ List.length (sent st') = 1%nat.
Proof.
  destruct (getGenerate_header_failure "a%0Acat"
              (String "a" (String (ascii_of_nat 10) "cat"))
              (answering sampleEnv imageResponse) freshState imageResponse)
    as (res & st' & E & Hs & _ & Ht & _ & Hn).
  - reflexivity.
  - vm_compute. split; discriminate.
  - reflexivity.
  - split; reflexivity.
  - intros rq. reflexivity.
  - reflexivity.
  - exists res, st'. auto.
Defined.

(** * The start-up check *)

(** X20.  The start-up check and the upstream client agree.  The check
    finds nothing missing exactly when both credentials are configured;
    otherwise it warns, and every call of [generateImage] then fails with an
    [AuthenticationError] that names the first variable of the warning. *)
Theorem startup_check_agrees (e : Env) :
  match missingEnvVars e with
  | [] => configured e /\ startupWarning e = None
  | first :: others =>
      ~ configured e
      /\ startupWarning e
         = Some (String.append "Missing environment variables: "
                   (String.concat ", " (first :: others)))
      /\ forall prompt p st,
           env p = e ->
           generateImage prompt p st
           = (Throw (AuthenticationError
                (String.append first " environment variable is required")), st)
  end.
Proof.
  unfold startupWarning, missingEnvVars, requiredEnvVars, configured.
  cbn [List.filter processEnv String.eqb Ascii.eqb Bool.eqb].
  change (processEnv e "CLOUDFLARE_ACCOUNT_ID") with (CLOUDFLARE_ACCOUNT_ID e).
  change (processEnv e "CLOUDFLARE_API_TOKEN") with (CLOUDFLARE_API_TOKEN e).
  destruct (unset (CLOUDFLARE_ACCOUNT_ID e)) eqn:Ha;
    destruct (unset (CLOUDFLARE_API_TOKEN e)) eqn:Ht.
  4: split; [split|]; reflexivity.
  all: split; [intros [H1 H2]; discriminate|]; split; [reflexivity|];
    intros prompt p st <-;
    destruct (generateImage_unset prompt p st) as [[H1 H2] | ->];
    [congruence | rewrite Ha; reflexivity].
Qed.

(** * The logger *)

Lemma upperUnits_letter c a :
  plainLetter a = true ->
  if sameLetter c a then Logger.upperUnits c = [Str.code a - 32]
  else exists u more, Logger.upperUnits c = u :: more /\ u <> Str.code a - 32.
Proof.
  intros Ha.
  pose proof (forall_ascii2
    (fun c a => implb (plainLetter a)
       (match Logger.upperUnits c with
        | [u] => if sameLetter c a then u =? Str.code a - 32
                 else negb (u =? Str.code a - 32)
        | u :: _ => negb (sameLetter c a) && negb (u =? Str.code a - 32)
        | [] => false
        end))) as H.
  specialize (H ltac:(vm_compute; reflexivity) c a). cbv beta in H.
  rewrite Ha in H. cbn [implb] in H.
  destruct (Logger.upperUnits c) as [|u [|v more]]; [discriminate H| |].
  - destruct (sameLetter c a).
    + apply Z.eqb_eq in H. now rewrite H.
    + apply negb_true_iff, Z.eqb_neq in H. eauto.
  - apply andb_prop in H as [H1 H2]. apply negb_true_iff in H1. rewrite H1.
    apply negb_true_iff, Z.eqb_neq in H2. eauto.
Qed.

Lemma upperUnits_nonempty c : Logger.upperUnits c <> [].
Proof.
  unfold Logger.upperUnits. cbv zeta.
  repeat match goal with |- context [if ?b then _ else _] => destruct b end;
    discriminate.
Qed.

Lemma toUpperCase_cons c s :
  Logger.toUpperCase (String c s)
  = (Logger.upperUnits c ++ Logger.toUpperCase s)%list.
Proof. reflexivity. Qed.

Lemma plainWord_cons a t :
  plainWord (String a t) = true -> plainLetter a = true /\ plainWord t = true.
Proof.
  unfold plainWord, plainLetter. rewrite includes_cons.
  cbn [lowerWord Str.startsWith].
  rewrite !andb_true_iff, !negb_true_iff, orb_false_iff, andb_true_r.
  rewrite (Ascii.eqb_sym a). tauto.
Qed.

(** Upper-casing gives the capitals of a word of letters other than s
    exactly for the spellings of that word. *)
Lemma toUpperCase_spells t : forall s,
  plainWord t = true ->
  Logger.toUpperCase s = capitals t <-> spells s t = true.
Proof.
  induction t as [|a t IH]; intros [|c s] Ht.
  - split; reflexivity.
  - rewrite toUpperCase_cons. cbn [spells capitals list_ascii_of_string List.map].
    pose proof (upperUnits_nonempty c).
    split; [|discriminate]. destruct (Logger.upperUnits c); [tauto | discriminate].
  - split; discriminate.
  - apply plainWord_cons in Ht as [Ha Ht].
    rewrite toUpperCase_cons. cbn [spells].
    change (capitals (String a t)) with ((Str.code a - 32) :: capitals t).
    pose proof (upperUnits_letter c a Ha) as Hc.
    destruct (sameLetter c a).
    + rewrite Hc. cbn [app andb]. rewrite <- (IH s Ht).
      split; [intros E; now injection E | intros ->; reflexivity].
    + destruct Hc as (u & more & -> & Hu). cbn [andb].
      split; [|discriminate]. intros E. injection E as E _. contradiction.
Qed.

(** The entry of [LogLevel] that an upper-cased text names. *)
Lemma LogLevel_spells s :
  Logger.LogLevel (Logger.toUpperCase s) =
    if spells s "error" then Some 0
    else if spells s "warn" then Some 1
    else if spells s "info" then Some 2
    else if spells s "debug" then Some 3
    else None.
Proof.
  unfold Logger.LogLevel.
  change (Logger.units "ERROR") with (capitals "error").
  change (Logger.units "WARN") with (capitals "warn").
  change (Logger.units "INFO") with (capitals "info").
  change (Logger.units "DEBUG") with (capitals "debug").
  pose proof (toUpperCase_spells "error" s eq_refl) as H0.
  pose proof (toUpperCase_spells "warn" s eq_refl) as H1.
  pose proof (toUpperCase_spells "info" s eq_refl) as H2.
  pose proof (toUpperCase_spells "debug" s eq_refl) as H3.
  repeat match goal with
         | |- context [decide ?P] => destruct (decide P)
         end;
    repeat match goal with
           | |- context [spells s ?t] => destruct (spells s t)
           end;
    try reflexivity; intuition congruence.
Qed.

Lemma spells_both s t t' :
  plainWord t = true -> plainWord t' = true ->
  spells s t = true -> spells s t' = true -> capitals t = capitals t'.
Proof.
  intros Ht Ht' H H'.
  apply (toUpperCase_spells t s Ht) in H.
  apply (toUpperCase_spells t' s Ht') in H'. congruence.
Qed.

(** No text spells two of the level names. *)
Ltac one_level :=
  match goal with
  | H : spells ?s ?t = true, H' : spells ?s ?t' = true |- _ =>
      let E := fresh in
      pose proof (spells_both s t t' eq_refl eq_refl H H') as E;
      vm_compute in E; discriminate E
  end.

Lemma currentLogLevel_spells v :
  Logger.currentLogLevel v =
    match v with
    | Some s => if spells s "warn" then 1
                else if spells s "debug" then 3
                else 2
    | None => 2
    end.
Proof.
  unfold Logger.currentLogLevel. destruct v as [s|]; [|reflexivity].
  cbn [unset default from_option id].
  destruct (String.eqb s "") eqn:E.
  { apply String.eqb_eq in E. subst s. reflexivity. }
  rewrite LogLevel_spells.
  destruct (spells s "error") eqn:H0, (spells s "warn") eqn:H1,
    (spells s "info") eqn:H2, (spells s "debug") eqn:H3;
    try reflexivity; one_level.
Qed.

(** X21.  The level in force is WARN for a LOG_LEVEL that spells "warn" in
    any case, DEBUG for one that spells "debug", and INFO for everything
    else: for no value, for an unknown name, and also for "error", whose
    number 0 is taken for a missing entry. *)
Theorem currentLogLevel_table (LOG_LEVEL : option string) :
  Logger.currentLogLevel LOG_LEVEL =
    match LOG_LEVEL with
    | Some s => if spells s "warn" then Logger.WARN
                else if spells s "debug" then Logger.DEBUG
                else Logger.INFO
    | None => Logger.INFO
    end
  /\ Logger.currentLogLevel LOG_LEVEL <> Logger.ERROR
  /\ forall s, spells s "error" = true ->
               Logger.currentLogLevel (Some s) = Logger.INFO.
Proof.
  split; [apply currentLogLevel_spells|]. split.
  - rewrite currentLogLevel_spells. destruct LOG_LEVEL as [s|]; [|discriminate].
    destruct (spells s "warn"); [discriminate|].
    destruct (spells s "debug"); discriminate.
  - intros s Hs. rewrite currentLogLevel_spells.
    destruct (spells s "warn") eqn:Hw; [one_level|].
    destruct (spells s "debug") eqn:Hd; [one_level | reflexivity].
Qed.

Lemma logger_warn_always LOG_LEVEL now args :
  Logger.warn (Logger.currentLogLevel LOG_LEVEL) now args
  = Some (Logger.ConsoleWarn, Logger.formatLogMessage "WARN" now args).
Proof.
  rewrite currentLogLevel_spells. destruct LOG_LEVEL as [s|]; [|reflexivity].
  destruct (spells s "warn"); [reflexivity|].
  destruct (spells s "debug"); reflexivity.
Qed.

(** X22.  Whatever LOG_LEVEL says, error messages are written to
    [console.error] and warnings to [console.warn].  Info messages go to
    [console.log] unless LOG_LEVEL spells "warn", and debug messages are
    written, to [console.debug], only when it spells "debug". *)
Theorem logger_always_reports_errors (LOG_LEVEL : option string) (now : Z)
    (args : list string) :
  let current := Logger.currentLogLevel LOG_LEVEL in
  Logger.error current now args
    = Some (Logger.ConsoleError, Logger.formatLogMessage "ERROR" now args)
  /\ Logger.warn current now args
     = Some (Logger.ConsoleWarn, Logger.formatLogMessage "WARN" now args)
  /\ Logger.info current now args
     = (if match LOG_LEVEL with Some s => spells s "warn" | None => false end
        then None
        else Some (Logger.ConsoleLog, Logger.formatLogMessage "INFO" now args))
  /\ Logger.debug current now args
     = (if match LOG_LEVEL with Some s => spells s "debug" | None => false end
        then Some (Logger.ConsoleDebug,
                   Logger.formatLogMessage "DEBUG" now args)
        else None).
Proof.
  cbv zeta. rewrite currentLogLevel_spells.
  destruct LOG_LEVEL as [s|]; [|repeat split].
  destruct (spells s "warn") eqn:Hw; [|destruct (spells s "debug"); repeat split].
  destruct (spells s "debug") eqn:Hd; [one_level | repeat split].
Qed.

(** X23.  [setLevel] never changes the level.  For a name that spells one
    of the four levels the assignment to the constant throws a [TypeError];
    for any other name a warning is written.  [getLevel] therefore never
    answers "ERROR" for a level read from LOG_LEVEL. *)
Theorem setLevel_changes_nothing (LOG_LEVEL : option string) (now : Z)
    (level : string) :
  let current := Logger.currentLogLevel LOG_LEVEL in
  snd (Logger.setLevel current now level) = current
  /\ fst (Logger.setLevel current now level)
     = (if spells level "error" || spells level "warn"
           || spells level "info" || spells level "debug"
        then Throw (TypeError "Assignment to constant variable.")
        else Ok (Some (Logger.ConsoleWarn,
                       Logger.formatLogMessage "WARN" now
                         [String.append "Invalid log level: "
                            (String.append level
                               ". Valid levels: ERROR, WARN, INFO, DEBUG")])))
  /\ In (Logger.getLevel current) [Some "WARN"; Some "INFO"; Some "DEBUG"].
Proof.
  cbv zeta. split; [|split].
  - unfold Logger.setLevel. now destruct (Logger.LogLevel _).
  - unfold Logger.setLevel. rewrite LogLevel_spells.
    destruct (spells level "error"); [reflexivity|].
    destruct (spells level "warn"); [reflexivity|].
    destruct (spells level "info"); [reflexivity|].
    destruct (spells level "debug"); [reflexivity|].
    cbn [orb fst]. f_equal.
    pose proof (logger_warn_always LOG_LEVEL now) as Hw. rewrite Hw.
    reflexivity.
  - rewrite currentLogLevel_spells. destruct LOG_LEVEL as [s|]; [|simpl; tauto].
    destruct (spells s "warn"); [simpl; tauto|].
    destruct (spells s "debug"); simpl; tauto.
Qed.
